(** * dcmtag2table: extraction engine and inverted-index builder

    A shallow embedding of the Python sources of the plugin

      - [python_script/build_inverted_index.py]   (module [BuildInvertedIndex])
      - [python_script/dcmtag2table/dcmtag2table.py] (module [Dcmtag2table])
      - [python_script/main.py]                   (module [Main])

    preceded by a small model of the Python values and library calls the
    sources rely on (module [Py]), and followed by the properties of the
    specification, proved or refuted on these definitions.

    Printing on the standard streams is taken to succeed; of the lines
    printed, the model keeps those of the error stream of
    [build_inverted_index.py]. *)

From Stdlib Require Import List String Ascii Bool ZArith Lia.
From Stdlib Require Import Permutation Sorted OrderedTypeEx.
Import ListNotations.
Local Open Scope string_scope.
Local Open Scope list_scope.

(* ================================================================== *)
(** ** Python prelude *)
(* ================================================================== *)

Module Py.

(** A Python [str] is a [string]; each [ascii] stands for one code point
    below 256.  The empty string is written [EmptyString]. *)

(** Exceptions raised by the modelled code and library calls. *)
Inductive exn : Type :=
| ValueError (msg : string)
| KeyError (msg : string)
| FileNotFoundError (msg : string)
| OSError (msg : string)
| OverflowError (msg : string)
| RuntimeError (msg : string)
| CsvError (msg : string).

(** [str(exc)] *)
Definition exn_str (e : exn) : string :=
  match e with
  | ValueError m | KeyError m | FileNotFoundError m | OSError m
  | OverflowError m | RuntimeError m | CsvError m => m
  end.

(** A computation that returns a value or raises. *)
Inductive result (A : Type) : Type :=
| Ok (a : A)
| Raise (e : exn).
Arguments Ok {A} a.
Arguments Raise {A} e.

Definition bind {A B} (m : result A) (k : A -> result B) : result B :=
  match m with
  | Ok a => k a
  | Raise e => Raise e
  end.

(** Where the look-up of a path can raise: in [Path(arg).expanduser()]
    (a home directory that cannot be found) or in [path.exists()] (a
    name the system refuses, such as one that is too long). *)
Inductive stage : Type :=
| Expanding
| Testing.

Definition stage_eqb (s s' : stage) : bool :=
  match s, s' with
  | Expanding, Expanding | Testing, Testing => true
  | _, _ => false
  end.

(** What a path names on disk.  [Unreadable] is an entry for which
    [Path.exists()] holds and opening it raises: a directory, a file
    without read permission.  [Cut content exc] is a file whose reading
    gives [content] and then raises [exc]: bytes that do not decode, a
    CSV field over the limit of the [csv] module.  [Invalid s exc] is a
    path whose look-up raises [exc] at stage [s]. *)
Inductive entry (A : Type) : Type :=
| Missing
| Holds (content : A)
| Unreadable
| Cut (content : A) (exc : exn)
| Invalid (s : stage) (exc : exn).
Arguments Missing {A}.
Arguments Holds {A} content.
Arguments Unreadable {A}.
Arguments Cut {A} content exc.
Arguments Invalid {A} s exc.

(** Whether [path.exists()] returns [True]. *)
Definition exists_ {A} (e : entry A) : bool :=
  match e with
  | Missing | Invalid _ _ => false
  | Holds _ | Unreadable | Cut _ _ => true
  end.

(** What the look-up of a path raises at a stage, if it does. *)
Definition lookup_error {A} (s : stage) (e : entry A) : option exn :=
  match e with
  | Invalid s' exc => if stage_eqb s s' then Some exc else None
  | _ => None
  end.

(** Go on unless something was raised. *)
Definition guard {B} (raised : option exn) (k : result B) : result B :=
  match raised with
  | Some exc => Raise exc
  | None => k
  end.

(** *** Characters and strings *)

Definition chr (n : nat) : ascii := ascii_of_nat n.
Definition ord (c : ascii) : nat := nat_of_ascii c.
Definition str1 (c : ascii) : string := String c EmptyString.

(** [c.isspace()] for the code points below 256: TAB LF VT FF CR,
    FS GS RS US, SPACE, NEL and NBSP. *)
Definition isspace (c : ascii) : bool :=
  let n := ord c in
  (((9 <=? n) && (n <=? 13)) || ((28 <=? n) && (n <=? 32))
   || (n =? 133) || (n =? 160))%nat.

Fixpoint lstrip_with (p : ascii -> bool) (s : string) : string :=
  match s with
  | EmptyString => EmptyString
  | String c s' => if p c then lstrip_with p s' else s
  end.

Fixpoint rstrip_with (p : ascii -> bool) (s : string) : string :=
  match s with
  | EmptyString => EmptyString
  | String c s' =>
      match rstrip_with p s' with
      | EmptyString => if p c then EmptyString else str1 c
      | r => String c r
      end
  end.

(** [s.strip()] *)
Definition strip (s : string) : string :=
  rstrip_with isspace (lstrip_with isspace s).

Fixpoint char_in (c : ascii) (chars : string) : bool :=
  match chars with
  | EmptyString => false
  | String d chars' => Ascii.eqb c d || char_in c chars'
  end.

(** [s.strip(chars)] *)
Definition strip_chars (chars s : string) : string :=
  rstrip_with (fun c => char_in c chars)
    (lstrip_with (fun c => char_in c chars) s).

(** [s.startswith(p)] *)
Definition startswith (p s : string) : bool := String.prefix p s.

(** [sep.join(l)] *)
Definition join (sep : string) (l : list string) : string :=
  String.concat sep l.

(** Line boundaries of [str.splitlines()] below 256: LF VT FF CR, FS GS
    RS and NEL; CR LF counts once. *)
Definition is_linebreak (c : ascii) : bool :=
  let n := ord c in
  (((10 <=? n) && (n <=? 13)) || ((28 <=? n) && (n <=? 30))
   || (n =? 133))%nat.

(** [splitlines_aux cur s]: [cur] is the current line, reversed. *)
Fixpoint splitlines_aux (cur : list ascii) (s : string) : list string :=
  match s with
  | EmptyString =>
      match cur with
      | [] => []
      | _ => [string_of_list_ascii (rev cur)]
      end
  | String c s' =>
      if is_linebreak c then
        string_of_list_ascii (rev cur) ::
        match s' with
        | String d s'' =>
            if ((ord c =? 13) && (ord d =? 10))%nat
            then splitlines_aux [] s''
            else splitlines_aux [] s'
        | EmptyString => []
        end
      else splitlines_aux (c :: cur) s'
  end.

(** [s.splitlines()] *)
Definition splitlines (s : string) : list string := splitlines_aux [] s.

(** [x in l] for strings. *)
Definition mem (x : string) (l : list string) : bool :=
  existsb (String.eqb x) l.

(** *** Ordering of strings and [sorted] *)

(** A stable sort: [x] goes before the first element it is not greater
    than, and the elements are put in from the last to the first, so
    that equal elements keep their order. *)
Fixpoint insert {A : Type} (leb : A -> A -> bool) (x : A) (l : list A)
  : list A :=
  match l with
  | [] => [x]
  | y :: rest => if leb x y then x :: l else y :: insert leb x rest
  end.

Definition sort_by {A : Type} (leb : A -> A -> bool) (l : list A) : list A :=
  fold_right (insert leb) [] l.

(** [sorted(l)] on a sequence of [str]: by code points. *)
Definition sorted (l : list string) : list string := sort_by String.leb l.

(** *** Dictionaries

    A [dict] keeps its keys in insertion order; assigning to a key that
    is already there replaces the value and leaves the key in place. *)

Definition dict (V : Type) : Type := list (string * V).

Fixpoint dict_get {V} (d : dict V) (k : string) : option V :=
  match d with
  | [] => None
  | (k', v) :: d' => if String.eqb k k' then Some v else dict_get d' k
  end.

Fixpoint dict_set {V} (d : dict V) (k : string) (v : V) : dict V :=
  match d with
  | [] => [(k, v)]
  | (k', v') :: d' =>
      if String.eqb k k' then (k', v) :: d' else (k', v') :: dict_set d' k v
  end.

Definition keys {V} (d : dict V) : list string := map fst d.

(** *** Sets of strings

    A [set] is represented by the list of its elements without
    repetition.  The order in which Python iterates over a set depends
    on the hashes of its elements, which change from one interpreter
    run to the next: iteration is a parameter [set_iter] of the code
    that iterates, constrained only to enumerate the set. *)

Definition pyset : Type := list string.

Definition set_add (x : string) (s : pyset) : pyset :=
  if mem x s then s else s ++ [x].

Definition iteration (set_iter : pyset -> list string) : Prop :=
  forall s, Permutation (set_iter s) s.

(** *** JSON output

    [json.dump(obj, handle, ensure_ascii=False, indent=2, sort_keys=True)]
    for the objects the index writer dumps: a dictionary from strings
    to sequences of strings. *)

(** The items in the order [sort_keys=True] emits them: the keys of a
    dictionary are distinct, so the order is that of the keys. *)
Definition sort_keys (d : dict (list string)) : list (string * list string) :=
  sort_by (fun item item' => String.leb (fst item) (fst item')) d.

Definition hex_digit (n : nat) : ascii :=
  if (n <? 10)%nat then chr (48 + n) else chr (87 + n).

(** The escape of one character inside a JSON string. *)
Definition json_escape_char (c : ascii) : string :=
  let n := ord c in
  if (n =? 34)%nat then String (chr 92) (str1 (chr 34))
  else if (n =? 92)%nat then String (chr 92) (str1 (chr 92))
  else if (n =? 8)%nat then String (chr 92) "b"
  else if (n =? 12)%nat then String (chr 92) "f"
  else if (n =? 10)%nat then String (chr 92) "n"
  else if (n =? 13)%nat then String (chr 92) "r"
  else if (n =? 9)%nat then String (chr 92) "t"
  else if (n <? 32)%nat then
    String (chr 92) ("u00" ++ String (hex_digit (n / 16)) (str1 (hex_digit (n mod 16))))
  else str1 c.

Fixpoint json_escape (s : string) : string :=
  match s with
  | EmptyString => EmptyString
  | String c s' => json_escape_char c ++ json_escape s'
  end.

Definition json_str (s : string) : string :=
  str1 (chr 34) ++ json_escape s ++ str1 (chr 34).

Definition newline : string := str1 (chr 10).

Definition json_list (l : list string) : string :=
  match l with
  | [] => "[]"
  | _ =>
      "[" ++ newline ++ "    "
      ++ join ("," ++ newline ++ "    ") (map json_str l)
      ++ newline ++ "  " ++ "]"
  end.

Definition json_item (kv : string * list string) : string :=
  json_str (fst kv) ++ ": " ++ json_list (snd kv).

(** The text of an object whose items are emitted in the given order. *)
Definition json_object (items : list (string * list string)) : string :=
  match items with
  | [] => "{}"
  | _ =>
      "{" ++ newline ++ "  "
      ++ join ("," ++ newline ++ "  ") (map json_item items)
      ++ newline ++ "}"
  end.

Definition json_dump (d : dict (list string)) : string :=
  json_object (sort_keys d).

End Py.
Import Py.

(* ================================================================== *)
(** ** build_inverted_index.py *)
(* ================================================================== *)

Module BuildInvertedIndex.

Definition MISSING_TOKENS : list string :=
  [ EmptyString; "Not found"; "None"; "none"; "NULL"; "null"; "nan"; "NaN" ].

(** The loop of [load_tags] over the lines of the tags file. *)
Fixpoint collect_tags (lines : list string) : list string :=
  match lines with
  | [] => []
  | line :: rest =>
      let trimmed := strip line in
      if String.eqb trimmed EmptyString || startswith "#" trimmed
      then collect_tags rest
      else trimmed :: collect_tags rest
  end.

Definition load_tags (path : entry string) : result (list string) :=
  match path with
  | Missing => Raise (FileNotFoundError "No such file or directory")
  | Unreadable => Raise (OSError "cannot read text")
  | Cut _ exc => Raise exc
  | Invalid _ exc => Raise exc
  | Holds text => Ok (collect_tags (splitlines text))
  end.

(** The class [[A-Za-z0-9._-]]. *)
Definition is_safe (c : ascii) : bool :=
  let n := ord c in
  (((65 <=? n) && (n <=? 90)) || ((97 <=? n) && (n <=? 122))
   || ((48 <=? n) && (n <=? 57))
   || (n =? 46) || (n =? 95) || (n =? 45))%nat.

(** [re.sub(r"[^A-Za-z0-9._-]+", "_", tag)]: every maximal run of
    characters outside the class becomes one underscore.  [in_run] tells
    that the previous character was already outside the class. *)
Fixpoint sub_unsafe (in_run : bool) (s : string) : string :=
  match s with
  | EmptyString => EmptyString
  | String c s' =>
      if is_safe c then String c (sub_unsafe false s')
      else if in_run then sub_unsafe true s'
      else String "_" (sub_unsafe true s')
  end.

Definition sanitize_filename (tag : string) : string :=
  let safe := strip_chars "._" (sub_unsafe false tag) in
  if String.eqb safe EmptyString then "tag" else safe.

(** A CSV file is represented by the records [csv.reader] yields for
    it, one list of cells per record (the empty list for a blank line):
    the parsing of delimiters and quotes is the [csv] module's. *)
Definition records : Type := list (list string).

(** The [str] keys of a row of [csv.DictReader]: a cell, or [None] for
    a field the record is too short for.  Cells beyond the header go
    under the key [None], which no lookup by name reaches. *)
Definition csv_row : Type := dict (option string).

Definition DictReader_row (fieldnames : list string) (record : list string)
  : csv_row :=
  let d :=
    fold_left (fun d kv => dict_set d (fst kv) (Some (snd kv)))
              (combine fieldnames record) [] in
  fold_left (fun d key => dict_set d key None)
            (skipn (List.length record) fieldnames) d.

Definition is_blank (record : list string) : bool :=
  match record with [] => true | _ => false end.

(** The rows [DictReader] yields after the header: blank records are
    passed over. *)
Definition DictReader_rows (fieldnames : list string) (data : records)
  : list csv_row :=
  map (DictReader_row fieldnames) (filter (fun r => negb (is_blank r)) data).

(** [row.get(name)] *)
Definition row_get (row : csv_row) (name : string) : option string :=
  match dict_get row name with
  | Some cell => cell
  | None => None
  end.

(** [x or ""] *)
Definition or_empty (x : option string) : string :=
  match x with
  | Some s => s
  | None => EmptyString
  end.

(** [defaultdict(set)]: value -> set of identifiers. *)
Definition value_map : Type := dict pyset.

Definition indexes_t : Type := dict value_map.

(** [{tag: defaultdict(set) for tag in tags}] *)
Definition empty_indexes (tags : list string) : indexes_t :=
  fold_left (fun d tag => dict_set d tag ([] : value_map)) tags [].

(** [value_map[value].add(study_uid)]; a value not yet there starts
    from the empty set. *)
Definition add_uid (vm : value_map) (value study_uid : string) : value_map :=
  match dict_get vm value with
  | Some uids => dict_set vm value (set_add study_uid uids)
  | None => dict_set vm value (set_add study_uid [])
  end.

(** [indexes[tag][value].add(study_uid)].  Every tag looked up is a key
    of [indexes], which was built from the same tags
    (see [empty_indexes_get]), so the [KeyError] branch is not taken. *)
Definition index_add (indexes : indexes_t) (tag value study_uid : string)
  : indexes_t :=
  match dict_get indexes tag with
  | Some vm => dict_set indexes tag (add_uid vm value study_uid)
  | None => indexes
  end.

(** The body of [for tag in tags] for one row. *)
Definition index_cell (missing_tokens : list string) (row : csv_row)
           (study_uid : string) (indexes : indexes_t) (tag : string)
  : indexes_t :=
  match row_get row tag with
  | None => indexes
  | Some raw_value =>
      let value := strip raw_value in
      if mem value missing_tokens then indexes
      else index_add indexes tag value study_uid
  end.

(** The body of [for row in reader]. *)
Definition index_row (tags : list string) (study_uid_column : string)
           (missing_tokens : list string) (indexes : indexes_t)
           (row : csv_row) : indexes_t :=
  let study_uid := strip (or_empty (row_get row study_uid_column)) in
  if mem study_uid missing_tokens then indexes
  else fold_left (index_cell missing_tokens row study_uid) tags indexes.

(** [tag for tag in tags if tag not in reader.fieldnames] *)
Definition missing_tags (fieldnames tags : list string) : list string :=
  filter (fun tag => negb (mem tag fieldnames)) tags.

(** [build_indexes] once the file is open. *)
Definition build_indexes_from (rs : records) (tags : list string)
           (study_uid_column : string) (missing_tokens : list string)
  : result indexes_t :=
  match rs with
  | [] | [] :: _ => Raise (ValueError "CSV file has no header row.")
  | fieldnames :: data =>
      match missing_tags fieldnames tags with
      | (_ :: _) as absent =>
          Raise (ValueError
                   ("CSV is missing tag columns: " ++ join ", " (sorted absent)))
      | [] =>
          if negb (mem study_uid_column fieldnames) then
            Raise (ValueError
                     ("CSV is missing required column: " ++ study_uid_column))
          else
            Ok (fold_left (index_row tags study_uid_column missing_tokens)
                          (DictReader_rows fieldnames data)
                          (empty_indexes tags))
      end
  end.

(** [build_indexes].  On a file whose reading raises after some records,
    the header is validated if it was read, the rows read are gone
    through, and the exception of the reader leaves the loop. *)
Definition build_indexes (csv_path : entry records) (tags : list string)
           (study_uid_column : string) (missing_tokens : list string)
  : result indexes_t :=
  match csv_path with
  | Missing => Raise (FileNotFoundError "No such file or directory")
  | Unreadable => Raise (OSError "cannot read text")
  | Invalid _ exc => Raise exc
  | Holds rs => build_indexes_from rs tags study_uid_column missing_tokens
  | Cut [] exc => Raise exc
  | Cut rs exc =>
      match build_indexes_from rs tags study_uid_column missing_tokens with
      | Ok _ => Raise exc
      | Raise validation => Raise validation
      end
  end.

Section Writer.

(** The iteration order of sets in this run of the interpreter. *)
Variable set_iter : pyset -> list string.

(** [{value: sorted(uids) for value, uids in value_map.items()}] *)
Definition serializable (vm : value_map) : dict (list string) :=
  map (fun item => (fst item, sorted (set_iter (snd item)))) vm.

(** A file written under [output_dir]: its name and its text. *)
Definition write : Type := (string * string)%type.

Definition filename_of (tag : string) : string :=
  sanitize_filename tag ++ ".json".

(** One turn of [for tag, value_map in indexes.items()]: the file
    written and the assignment to [index_manifest]. *)
Definition write_tag (state : list write * dict (list string))
           (item : string * value_map) : list write * dict (list string) :=
  let filename := filename_of (fst item) in
  (fst state ++ [(filename, json_dump (serializable (snd item)))],
   dict_set (snd state) filename (sorted (keys (snd item)))).

(** [write_indexes]: the files written, in the order of the writes,
    and the manifest dictionary; [index.json] is written last. *)
Definition index_manifest (indexes : indexes_t) : dict (list string) :=
  snd (fold_left write_tag indexes ([], [])).

Definition tag_writes (indexes : indexes_t) : list write :=
  fst (fold_left write_tag indexes ([], [])).

Definition write_indexes (indexes : indexes_t) : list write :=
  tag_writes indexes ++ [("index.json", json_dump (index_manifest indexes))].

(** The text a path holds after a sequence of writes. *)
Fixpoint file_after (writes : list write) (name : string) : option string :=
  match writes with
  | [] => None
  | (n, text) :: rest =>
      match file_after rest name with
      | Some later => Some later
      | None => if String.eqb name n then Some text else None
      end
  end.

Record Namespace : Type := {
  csv : string;
  tags_file : string;
  output_dir : string;
  study_uid_column : string;
  missing_token : list string
}.

(** The files the run can see, by the path given on the command line. *)
Record World : Type := {
  csv_files : string -> entry records;
  text_files : string -> entry string;
  (** [str(Path(arg).expanduser())], as the messages show a path *)
  shown : string -> string;
  (** what [output_dir.mkdir(parents=True, exist_ok=True)] raises, if
      it does *)
  mkdir : string -> option exn;
  (** what opening a file of the output directory for writing raises,
      if it does: by directory and file name *)
  open_w : string -> string -> option exn
}.

Record outcome : Type := {
  exit_code : Z;
  stderr : list string;
  written : list write
}.

Definition fail (message : string) : outcome :=
  {| exit_code := 1; stderr := [message]; written := [] |}.

(** The writes of [write_indexes] as the file system takes them: the
    first that raises ends the run, [write_indexes] being called
    outside the [try]. *)
Fixpoint write_all (w : World) (dir : string) (writes : list write)
  : result (list write) :=
  match writes with
  | [] => Ok []
  | (name, text) :: rest =>
      guard (open_w w dir name)
            (bind (write_all w dir rest)
                  (fun done => Ok ((name, text) :: done)))
  end.

Definition perform (w : World) (dir : string) (writes : list write)
  : result (list write) :=
  guard (mkdir w dir) (write_all w dir writes).

(** [main]; [Raise] is an exception that leaves [main] uncaught.  The
    three paths are expanded first, then the CSV and the tags file are
    tested in turn.  The expansion of the output directory is taken to
    return: it raises only for the home of a user that is not known. *)
Definition main (w : World) (args : Namespace) : result outcome :=
  let csv_path := csv_files w (csv args) in
  let tags_path := text_files w (tags_file args) in
  guard (lookup_error Expanding csv_path)
  (guard (lookup_error Expanding tags_path)
  (guard (lookup_error Testing csv_path)
  (if negb (exists_ csv_path) then
     Ok (fail ("ERROR: CSV not found: " ++ shown w (csv args)))
   else
     guard (lookup_error Testing tags_path)
     (if negb (exists_ tags_path) then
        Ok (fail ("ERROR: Tags file not found: " ++ shown w (tags_file args)))
      else
        bind (load_tags tags_path) (fun tags =>
          match tags with
          | [] => Ok (fail "ERROR: Tags file is empty.")
          | _ =>
              let missing_tokens :=
                MISSING_TOKENS ++ map strip (missing_token args) in
              match build_indexes csv_path tags (study_uid_column args)
                                  missing_tokens with
              | Raise exc => Ok (fail ("ERROR: " ++ exn_str exc))
              | Ok indexes =>
                  bind (perform w (output_dir args) (write_indexes indexes))
                       (fun done =>
                          Ok {| exit_code := 0; stderr := [];
                                written := done |})
              end
          end))))).

End Writer.

End BuildInvertedIndex.

(* ================================================================== *)
(** ** dcmtag2table/dcmtag2table.py *)
(* ================================================================== *)

Module Dcmtag2table.

Section Engine.

(** The values [pydicom] gives for data elements. *)
Variable value : Type.

(** What a dataset holds for a tag.  [Present v]: [tag in ds] holds and
    [ds.data_element(tag).value] is [v].  [Broken]: [tag in ds] holds
    and reading the value raises.  [Absent]: [tag in ds] does not
    hold. *)
Inductive element : Type :=
| Absent
| Present (v : value)
| Broken.

Definition Dataset : Type := string -> element.

(** [pydicom.dcmread(filepath, stop_before_pixels=True, force=True)];
    [None] when it raises. *)
Variable dcmread : string -> option Dataset.

(** The order in which [as_completed] yields the futures. *)
Variable as_completed : forall A : Type, list A -> list A.

(** A cell of a row: a [str] put there by the engine, or a value read
    from the file. *)
Inductive cell : Type :=
| Str (s : string)
| Value (v : value).

(** The list [[filepath, cell1, ..., celln]]. *)
Record row : Type := {
  Filename : string;
  cells : list cell
}.

(** The loop [for tag in list_of_tags] of [_read_dicom_tags]; [None]
    when an exception leaves it. *)
Fixpoint read_cells (ds : Dataset) (list_of_tags : list string)
  : option (list cell) :=
  match list_of_tags with
  | [] => Some []
  | tag :: rest =>
      match ds tag with
      | Broken => None
      | Present v => option_map (cons (Value v)) (read_cells ds rest)
      | Absent => option_map (cons (Str "Not found")) (read_cells ds rest)
      end
  end.

Definition _read_dicom_tags (filepath : string) (list_of_tags : list string)
  : option row :=
  match dcmread filepath with
  | None => None
  | Some ds =>
      option_map (fun values => {| Filename := filepath; cells := values |})
                 (read_cells ds list_of_tags)
  end.

Record DataFrame : Type := {
  columns : list string;
  rows : list row
}.

(** [df.sort_values(by=["Filename"], ascending=True)]: the rows are
    compared on the Filename column alone.  The default sort of [pandas]
    is not stable; the rows of one Filename are reads of one file and
    are equal (lemma [rows_of_a_file]), so that every sorted arrangement
    is the same table (lemma [sort_rows_completed]).  [pandas] refuses a
    label that several columns carry. *)
Definition sort_rows (l : list row) : list row :=
  sort_by (fun r r' => String.leb (Filename r) (Filename r')) l.

Definition sort_values_Filename (df : DataFrame) : result DataFrame :=
  match count_occ string_dec (columns df) "Filename" with
  | 0%nat => Raise (KeyError "Filename")
  | 1%nat => Ok {| columns := columns df; rows := sort_rows (rows df) |}
  | _ => Raise (ValueError "The column label 'Filename' is not unique.")
  end.

(** The rows appended in the loop over [as_completed(futures)]: one per
    future whose result is not [None]. *)
Fixpoint collect_rows (completed : list (string * option row)) : list row :=
  match completed with
  | [] => []
  | (_, None) :: rest => collect_rows rest
  | (_, Some r) :: rest => r :: collect_rows rest
  end.

(** [bool(path)] *)
Definition truthy (path : string) : bool :=
  negb (String.eqb path EmptyString).

(** The largest C [int]: the queue of the pool has one slot more than
    there are workers, and its size is passed as a C [int]. *)
Definition INT_MAX : Z := 2147483647.

(** [ProcessPoolExecutor(max_workers=max_workers)]: what it raises, if
    it does. *)
Definition ProcessPoolExecutor (max_workers : Z) : option exn :=
  if (max_workers <=? 0)%Z then
    Some (ValueError "max_workers must be greater than 0")
  else if (INT_MAX <? max_workers + 1)%Z then
    Some (OverflowError "Python int too large to convert to C int")
  else None.

Definition dcmtag2table_from_file_list (filelist : list string)
           (list_of_tags : list string) (max_workers : Z)
  : result DataFrame :=
  let filelist := filter truthy filelist in
  let header := "Filename" :: list_of_tags in
  match filelist with
  | [] => Ok {| columns := header; rows := [] |}
  | _ =>
      guard (ProcessPoolExecutor max_workers)
        (let futures :=
           map (fun f => (f, _read_dicom_tags f list_of_tags)) filelist in
         let df := {| columns := header;
                      rows := collect_rows (as_completed _ futures) |} in
         match rows df with
         | [] => Ok df
         | _ => sort_values_Filename df
         end)
  end.

End Engine.

Arguments Absent {value}.
Arguments Present {value} v.
Arguments Broken {value}.
Arguments Str {value} s.
Arguments Value {value} v.
Arguments Filename {value} r.
Arguments cells {value} r.
Arguments columns {value} d.
Arguments rows {value} d.

End Dcmtag2table.

(* ================================================================== *)
(** ** main.py *)
(* ================================================================== *)

Module Main.

Import Dcmtag2table.

Definition DEFAULT_TAGS : list string :=
  [ "StudyInstanceUID"; "StudyDescription"; "StudyDate"; "StudyTime";
    "AccessionNumber"; "PatientID"; "PatientName"; "PatientSex";
    "PatientAge"; "Modality"; "SeriesInstanceUID"; "SeriesDescription";
    "SeriesNumber"; "ProtocolName"; "BodyPartExamined"; "Manufacturer";
    "ManufacturerModelName"; "StationName" ].

(** [tags or DEFAULT_TAGS] *)
Definition or_default (tags : list string) : list string :=
  match tags with
  | [] => DEFAULT_TAGS
  | _ => tags
  end.

(** [load_tags]; [fs] gives what a path names, by the string passed on
    the command line.  The loop over the lines is the one of
    [load_tags] in [build_inverted_index.py], statement for statement. *)
Definition load_tags (fs : string -> entry string)
           (tags_file : option string) : result (list string) :=
  match tags_file with
  | None => Ok DEFAULT_TAGS
  | Some name =>
      if String.eqb name EmptyString then Ok DEFAULT_TAGS
      else
        match fs name with
        | Invalid _ exc => Raise exc
        | Missing => Ok DEFAULT_TAGS
        | Unreadable => Raise (OSError "cannot read text")
        | Cut _ exc => Raise exc
        | Holds text =>
            Ok (or_default
                  (BuildInvertedIndex.collect_tags (splitlines text)))
        end
  end.

Section Run.

Variable value : Type.
Variable dcmread : string -> option (Dataset value).
Variable as_completed : forall A : Type, list A -> list A.

Record Namespace : Type := {
  manifest : string;
  output_dir : string;
  tags_file : option string;
  max_workers : Z
}.

Record World : Type := {
  (** [str(Path(arg).expanduser())], as the messages show a path *)
  shown : string -> string;
  (** [Path(p).exists()], which can raise; for the manifest, of the
      expanded path, whose expansion can raise too *)
  path_exists : string -> result bool;
  (** the outcome of [load_manifest] on the manifest file *)
  load_manifest : result (list string);
  (** the text files, for [load_tags] *)
  text_files : string -> entry string;
  (** what [ensure_output_dir] raises, if it does *)
  make_output_dir : string -> option exn;
  (** what the import of the engine raises, if it does *)
  import_engine : option exn;
  (** what [df.to_csv] raises, if it does, by output directory *)
  to_csv : string -> option exn
}.

Record outcome : Type := {
  exit_code : Z;
  (** the table written by [df.to_csv], when the run gets there *)
  table : option (DataFrame value)
}.

(** The call of the engine in [main]. *)
Definition extract (filelist tags : list string) (workers : Z)
  : result (DataFrame value) :=
  dcmtag2table_from_file_list value dcmread as_completed
    filelist tags (Z.max 1 workers).

(** [[path for path in filelist if Path(path).exists()]]; the list of
    the paths that do not exist is made by the same tests. *)
Fixpoint existing (w : World) (filelist : list string)
  : result (list string) :=
  match filelist with
  | [] => Ok []
  | path :: rest =>
      bind (path_exists w path) (fun found =>
      bind (existing w rest) (fun kept =>
        Ok (if found then path :: kept else kept)))
  end.

(** The body of [try] in [main]; the messages are left out. *)
Definition run (w : World) (args : Namespace) : result (DataFrame value) :=
  bind (path_exists w (manifest args)) (fun found =>
    if negb found then
      Raise (FileNotFoundError
               ("Manifest not found: " ++ shown w (manifest args)))
    else
      bind (load_manifest w) (fun filelist =>
      bind (load_tags (text_files w) (tags_file args)) (fun tags =>
      guard (make_output_dir w (output_dir args))
      (bind (existing w filelist) (fun filelist =>
       guard (import_engine w)
       (bind (extract filelist tags (max_workers args)) (fun df =>
        guard (to_csv w (output_dir args)) (Ok df)))))))).

Definition main (w : World) (args : Namespace) : outcome :=
  match run w args with
  | Ok df => {| exit_code := 0; table := Some df |}
  | Raise _ => {| exit_code := 1; table := None |}
  end.

End Run.

End Main.

(* ================================================================== *)
(** ** Vocabulary of the properties *)
(* ================================================================== *)

Import BuildInvertedIndex.

(** The order a boolean comparison decides. *)
Definition le_of {A : Type} (leb : A -> A -> bool) (x y : A) : Prop :=
  leb x y = true.

(** The order of strings, by code points. *)
Definition le_str (a b : string) : Prop := le_of String.leb a b.

(** A sequence of strings in ascending order. *)
Definition ascending (l : list string) : Prop := StronglySorted le_str l.

(** The identifier of a row: its key-column cell, trimmed ([None]
    counts as the empty string). *)
Definition row_uid (study_uid_column : string) (row : csv_row) : string :=
  strip (or_empty (row_get row study_uid_column)).

(** [row] accounts for identifier [id] under value [V] of attribute [A]. *)
Definition accounts_for (study_uid_column : string) (missing_tokens : list string)
           (A V id : string) (row : csv_row) : Prop :=
  (exists raw_value, row_get row A = Some raw_value /\ strip raw_value = V)
  /\ mem V missing_tokens = false
  /\ row_uid study_uid_column row = id
  /\ mem id missing_tokens = false.

(** Every identifier of [indexes] is accounted for by a row of [rows]. *)
Definition justified (study_uid_column : string) (missing_tokens : list string)
           (rows : list csv_row) (indexes : indexes_t) : Prop :=
  forall A vm V uids id,
    dict_get indexes A = Some vm -> dict_get vm V = Some uids -> In id uids ->
    exists row, In row rows /\ accounts_for study_uid_column missing_tokens A V id row.

(** The records whose row has a usable identifier. *)
Definition usable (fieldnames : list string) (study_uid_column : string)
           (missing_tokens : list string) (data : records) : records :=
  filter (fun record =>
            negb (mem (row_uid study_uid_column
                               (DictReader_row fieldnames record))
                      missing_tokens)) data.

(** The table of the worked example, and a set iteration that differs
    from the order of insertion. *)
Module Example.

Definition table : records :=
  [ ["Filename"; "Modality"; "StudyInstanceUID"];
    ["a.dcm"; "CT"; "S1"];
    ["b.dcm"; "CT"; "S2"];
    ["c.dcm"; "Not found"; "S1"] ].

Definition backwards (s : pyset) : list string := rev s.

End Example.

(** The files and arguments of a run of [build_inverted_index.py] on
    the worked example, asking for a column the table does not have. *)
Module ExampleRun.

Import BuildInvertedIndex.

Definition tags_text : string :=
  "# requested" ++ newline ++ "StudyDate" ++ newline ++ " Modality "
  ++ newline ++ "AccessionNumber" ++ newline.

Definition world : World :=
  {| csv_files := fun name =>
       if String.eqb name "export.csv" then Holds Example.table else Missing;
     text_files := fun name =>
       if String.eqb name "dicomtags.txt" then Holds tags_text else Missing;
     shown := fun name => name;
     mkdir := fun _ => None;
     open_w := fun _ _ => None |}.

Definition args : Namespace :=
  {| csv := "export.csv";
     tags_file := "dicomtags.txt";
     output_dir := "out";
     study_uid_column := "StudyInstanceUID";
     missing_token := [] |}.

End ExampleRun.

(** What [write_indexes] does for one attribute: the file and the
    manifest entry. *)
Definition tag_file (set_iter : pyset -> list string)
           (item : string * value_map) : write :=
  (filename_of (fst item), json_dump (serializable set_iter (snd item))).

Definition manifest_entry (manifest : dict (list string))
           (item : string * value_map) : dict (list string) :=
  dict_set manifest (filename_of (fst item)) (sorted (keys (snd item))).

(** Vocabulary for the extraction engine. *)
Module EngineSpec.

Import Dcmtag2table.

(** [as_completed] yields every future once, in some order. *)
Definition completion (as_completed : forall A : Type, list A -> list A) : Prop :=
  forall (A : Type) (l : list A), Permutation (as_completed A l) l.

(** The cell the engine puts in a row for [tag]. *)
Definition expected_cell {value : Type} (ds : Dataset value) (tag : string)
  : cell value :=
  match ds tag with
  | Present v => Value v
  | Absent => Str "Not found"
  | Broken => Str "Not found"
  end.

(** No requested value raises when it is read. *)
Definition readable {value : Type} (ds : Dataset value) (tags : list string)
  : bool :=
  forallb (fun tag => match ds tag with Broken => false | _ => true end) tags.

(** Whether the read of a file fails. *)
Definition read_fails {value : Type} (dcmread : string -> option (Dataset value))
           (tags : list string) (filepath : string) : bool :=
  match _read_dicom_tags value dcmread filepath tags with
  | None => true
  | Some _ => false
  end.

(** The futures submitted for [paths], each with its result. *)
Definition futures_of {value : Type} (dcmread : string -> option (Dataset value))
           (tags paths : list string) : list (string * option (row value)) :=
  map (fun f => (f, _read_dicom_tags value dcmread f tags)) paths.

Definition by_filename {value : Type} (r1 r2 : row value) : Prop :=
  le_str (Filename r1) (Filename r2).

(** A reader for examples: [bad.dcm] cannot be read, the other files
    hold a Modality and nothing else. *)
Definition reader (filepath : string) : option (Dataset string) :=
  if String.eqb filepath "bad.dcm" then None
  else Some (fun tag => if String.eqb tag "Modality" then Present "CT"
                        else Absent).

(** A completion order for examples: last submitted, first completed. *)
Definition last_first (A : Type) (l : list A) : list A := rev l.

(** Another one: in the order of submission. *)
Definition first_first (A : Type) (l : list A) : list A := l.

End EngineSpec.

(** The attribute list resolver, in the words of its contract: the
    lines of the override file, trimmed, without the blank ones and
    those that begin with [#]. *)
Module ResolverSpec.

Definition is_entry (trimmed : string) : bool :=
  negb (String.eqb trimmed EmptyString || startswith "#" trimmed).

Definition entries (text : string) : list string :=
  filter is_entry (map strip (splitlines text)).

(** A file system for examples: one override file. *)
Definition files (name : string) : entry string :=
  if String.eqb name "dicomtags.txt"
  then Holds ("# identifiers" ++ newline ++ "  PatientID " ++ newline
              ++ newline ++ "Modality")%string
  else Missing.

(** A file system in which every path is a directory. *)
Definition directories (name : string) : entry string := Unreadable.

End ResolverSpec.

(** Vocabulary for strings. *)
Module StringSpec.

Definition first_char (s : string) : option ascii :=
  match s with
  | EmptyString => None
  | String c _ => Some c
  end.

Fixpoint last_char (s : string) : option ascii :=
  match s with
  | EmptyString => None
  | String c EmptyString => Some c
  | String _ s' => last_char s'
  end.

(** Every character of [s] satisfies [p]. *)
Fixpoint all_chars (p : ascii -> bool) (s : string) : bool :=
  match s with
  | EmptyString => true
  | String c s' => p c && all_chars p s'
  end.

(** [s] neither begins nor ends with a character that satisfies [p]. *)
Definition trimmed_of (p : ascii -> bool) (s : string) : Prop :=
  (forall c, first_char s = Some c -> p c = false)
  /\ (forall c, last_char s = Some c -> p c = false).

End StringSpec.

(** Vocabulary for the further properties of the index builder. *)
Module IndexSpec.

Import BuildInvertedIndex.

(** An attribute name as the tags files give them: not empty, nothing
    to trim, not a comment. *)
Definition well_formed_tag (tag : string) : Prop :=
  tag <> EmptyString /\ strip tag = tag /\ startswith "#" tag = false.

(** [id] is recorded under value [V] of attribute [A]. *)
Definition recorded (indexes : indexes_t) (A V id : string) : Prop :=
  exists vm uids,
    dict_get indexes A = Some vm /\ dict_get vm V = Some uids /\ In id uids.

(** A value map as [build_indexes] builds them: distinct values, each
    with a set of identifiers that is not empty and has no repetition. *)
Definition well_formed_map (vm : value_map) : Prop :=
  NoDup (keys vm)
  /\ Forall (fun item => snd item <> [] /\ NoDup (snd item)) vm.

End IndexSpec.

(** More example data: a tags file of comments only, and the table of
    the worked example with its rows in another order and one row
    twice. *)
Module ExampleMore.

Import BuildInvertedIndex.

Definition comments_only : string :=
  ("# nothing requested" ++ newline ++ "   " ++ newline ++ "  # yet")%string.

Definition world : World :=
  {| csv_files := fun name =>
       if String.eqb name "export.csv" then Holds Example.table else Missing;
     text_files := fun name =>
       if String.eqb name "dicomtags.txt" then Holds comments_only
       else Missing;
     shown := fun name => name;
     mkdir := fun _ => None;
     open_w := fun _ _ => None |}.

Definition shuffled : records :=
  [ ["Filename"; "Modality"; "StudyInstanceUID"];
    ["b.dcm"; "CT"; "S2"];
    ["c.dcm"; "Not found"; "S1"];
    ["b.dcm"; "CT"; "S2"];
    ["a.dcm"; "CT"; "S1"] ].

End ExampleMore.

(** Two value maps that record the same identifiers. *)
Definition same_map (vm vm' : value_map) : Prop :=
  forall V id,
    (exists uids, dict_get vm V = Some uids /\ In id uids)
    <-> (exists uids, dict_get vm' V = Some uids /\ In id uids).

(** The paths the engine reads with success, in the order given. *)
Definition read_paths {value : Type}
           (dcmread : string -> option (Dcmtag2table.Dataset value))
           (tags filelist : list string) : list string :=
  filter (fun f => negb (EngineSpec.read_fails dcmread tags f))
         (filter Dcmtag2table.truthy filelist).

(* ================================================================== *)
(** ** main.py: load_manifest *)
(* ================================================================== *)

Module Manifest.

Local Unset Elimination Schemes.

(** A JSON document as [json.loads] gives it.  Of a number the code
    asks only whether it is zero.  An object is a dictionary: its
    member names are distinct. *)
Inductive json : Type :=
| JNull
| JBool (b : bool)
| JNumber (nonzero : bool)
| JString (s : string)
| JArray (elements : list json)
| JObject (members : dict json).

Local Set Elimination Schemes.

(** [bool(x)], for a value or [None] *)
Definition truth (x : option json) : bool :=
  match x with
  | None => false
  | Some JNull => false
  | Some (JBool b) => b
  | Some (JNumber nonzero) => nonzero
  | Some (JString s) => negb (String.eqb s EmptyString)
  | Some (JArray []) => false
  | Some (JArray (_ :: _)) => true
  | Some (JObject []) => false
  | Some (JObject (_ :: _)) => true
  end.

(** [x or y] *)
Definition py_or (x y : option json) : option json :=
  if truth x then x else y.

(** What [load_manifest] returns or raises. *)
Inductive loaded : Type :=
| Paths (file_paths : list string)
| RaisesValueError (msg : string)
| RaisesTypeError.

(** The value bound to [items]. *)
Definition items_of (data : json) : option json :=
  match data with
  | JObject d =>
      py_or (py_or (dict_get d "series") (dict_get d "files"))
            (dict_get d "entries")
  | JArray _ => Some data
  | _ => None
  end.

(** What [for item in items] goes through; [None] when [items] cannot
    be iterated over.  A string gives its characters, a dictionary its
    keys. *)
Definition iterate (items : json) : option (list json) :=
  match items with
  | JArray l => Some l
  | JString s => Some (map (fun c => JString (str1 c)) (list_ascii_of_string s))
  | JObject d => Some (map JString (keys d))
  | JNull | JBool _ | JNumber _ => None
  end.

(** The value bound to [path_value]. *)
Definition path_value_of (item : json) : option json :=
  match item with
  | JObject d =>
      py_or (py_or (dict_get d "file_path") (dict_get d "path"))
            (dict_get d "filePath")
  | JString _ => Some item
  | _ => None
  end.

Section Paths.

(** [str(Path(p))] for an absolute [p], and
    [str((manifest_dir / p).resolve())] for a relative one, [None]
    when [resolve] raises its [ValueError] (a name with a null
    character in it). *)
Variable absolute : string -> string.
Variable resolved : string -> option string.

(** [Path(p).is_absolute()], on POSIX *)
Definition is_absolute (p : string) : bool := startswith "/" p.

(** The string appended to [file_paths] for [p], if there is one. *)
Definition located (p : string) : option string :=
  if is_absolute p then Some (absolute p) else resolved p.

(** The loop over the items. *)
Fixpoint collect_paths (items : list json) : loaded :=
  match items with
  | [] => Paths []
  | item :: rest =>
      let path_value := path_value_of item in
      if negb (truth path_value) then collect_paths rest
      else
        match path_value with
        | Some (JString p) =>
            match located p with
            | None => RaisesValueError "embedded null byte"
            | Some file_path =>
                match collect_paths rest with
                | Paths file_paths => Paths (file_path :: file_paths)
                | raised => raised
                end
            end
        | _ => RaisesTypeError
        end
  end.

(** [load_manifest], from the document read. *)
Definition load_manifest (data : json) : loaded :=
  let items := items_of data in
  if negb (truth items) then
    RaisesValueError "Manifest does not contain any series entries."
  else
    match items with
    | Some items =>
        match iterate items with
        | Some l => collect_paths l
        | None => RaisesTypeError
        end
    | None => RaisesTypeError
    end.

End Paths.

(** A document without entries: not an array or an object, an empty
    array, or an object in which none of the members series, files and
    entries is there with a value that counts as true. *)
Definition without_entries (data : json) : Prop :=
  match data with
  | JArray l => l = []
  | JObject d =>
      truth (dict_get d "series") = false
      /\ truth (dict_get d "files") = false
      /\ truth (dict_get d "entries") = false
  | _ => True
  end.

(** Paths for examples: absolute ones as they are, relative ones under
    the directory of the manifest. *)
Definition under_export (p : string) : option string :=
  Some ("/export/" ++ p)%string.

Definition same (p : string) : string := p.

End Manifest.

(** The paths [main] of [main.py] finds: those whose test of existence
    answers yes. *)
Definition found (w : Main.World) (path : string) : bool :=
  match Main.path_exists w path with
  | Ok answer => answer
  | Raise _ => false
  end.

(** Runs of [main.py] for examples: every path exists but [gone.dcm],
    in the first; only the manifest exists, in the second.  Nothing
    fails in the directory of the output. *)
Module ExampleExtraction.

Definition world : Main.World :=
  {| Main.shown := fun name => name;
     Main.path_exists := fun p => Ok (negb (String.eqb p "gone.dcm"));
     Main.load_manifest := Ok ["bad.dcm"; "gone.dcm"; "a.dcm"];
     Main.text_files := fun _ => Missing;
     Main.make_output_dir := fun _ => None;
     Main.import_engine := None;
     Main.to_csv := fun _ => None |}.

Definition emptied : Main.World :=
  {| Main.shown := fun name => name;
     Main.path_exists := fun p => Ok (String.eqb p "manifest.json");
     Main.load_manifest := Ok ["x.dcm"; "y.dcm"];
     Main.text_files := fun _ => Missing;
     Main.make_output_dir := fun _ => None;
     Main.import_engine := None;
     Main.to_csv := fun _ => None |}.

Definition arguments (workers : Z) : Main.Namespace :=
  {| Main.manifest := "manifest.json";
     Main.output_dir := "out";
     Main.tags_file := None;
     Main.max_workers := workers |}.

End ExampleExtraction.

(** A cell that holds [None]; [none] tells which of the values the
    reader of files gives are [None]. *)
Definition null {value : Type} (none : value -> bool)
           (c : Dcmtag2table.cell value) : bool :=
  match c with
  | Dcmtag2table.Str _ => false
  | Dcmtag2table.Value v => none v
  end.

(** A file for examples whose SeriesNumber is present and empty, for
    which [pydicom] gives [None] as the representation is a number,
    whose PatientID is present and empty, for which it gives the empty
    string, and which has no other attribute. *)
Module ExampleNull.

Import Dcmtag2table.

Definition value : Type := option string.

Definition none (v : value) : bool :=
  match v with
  | None => true
  | Some _ => false
  end.

Definition reader (filepath : string) : option (Dataset value) :=
  Some (fun tag => if String.eqb tag "SeriesNumber" then Present None
                   else if String.eqb tag "PatientID"
                        then Present (Some EmptyString)
                        else Absent).

End ExampleNull.

(** [l] holds the elements of [s], each as often, in ascending order. *)
Definition sorted_copy (l s : list string) : Prop :=
  Permutation l s /\ ascending l.

(** [items] is the map [vm] as the writer emits it: one item for every
    value of the map, the values ascending, each with the identifiers
    of its set in ascending order. *)
Definition dumped (vm : value_map) (items : list (string * list string))
  : Prop :=
  ascending (map fst items)
  /\ exists order,
      Permutation order vm
      /\ Forall2 (fun item entry =>
                    fst item = fst entry
                    /\ sorted_copy (snd item) (snd entry))
                 items order.

(** [items] is the manifest of [indexes] as the writer emits it: one
    item for every file name of an attribute, the names ascending, each
    with the distinct values of an attribute of that file name in
    ascending order. *)
Definition listed (indexes : indexes_t) (items : list (string * list string))
  : Prop :=
  ascending (map fst items)
  /\ NoDup (map fst items)
  /\ (forall name,
         In name (map fst items)
         <-> exists tag vm,
              In (tag, vm) indexes
              /\ name = (sanitize_filename tag ++ ".json")%string)
  /\ (forall name values,
         In (name, values) items ->
         exists tag vm,
           In (tag, vm) indexes
           /\ name = (sanitize_filename tag ++ ".json")%string
           /\ sorted_copy values (keys vm)).

(* ================================================================== *)
(** ** Properties *)
(* ================================================================== *)

(** *** Strings, order and sorting *)

Lemma leb_cases (a b : string) :
  String.leb a b = true <-> (a = b \/ String_as_OT.lt a b).
Proof.
  unfold String.leb.
  destruct (String.compare a b) eqn:E.
  - apply String.compare_eq_iff in E. tauto.
  - apply String_as_OT.cmp_lt in E. tauto.
  - split; [discriminate|].
    intros [-> | H].
    + assert (String_as_OT.cmp b b = Eq) as R by now apply String_as_OT.cmp_eq.
      unfold String_as_OT.cmp in R. congruence.
    + apply String_as_OT.cmp_lt in H. unfold String_as_OT.cmp in H. congruence.
Qed.

Lemma le_str_refl (a : string) : le_str a a.
Proof. unfold le_str, le_of. apply leb_cases. now left. Qed.

Lemma le_str_trans (a b c : string) : le_str a b -> le_str b c -> le_str a c.
Proof.
  unfold le_str, le_of. rewrite !leb_cases.
  intros [-> | H1] [-> | H2]; auto.
  right. eapply String_as_OT.lt_trans; eauto.
Qed.

Lemma le_str_antisym (a b : string) : le_str a b -> le_str b a -> a = b.
Proof. apply String.leb_antisym. Qed.

(** Two sorted arrangements of the same elements are the same list, as
    soon as elements that compare both ways are equal. *)
Lemma sorted_arrangement_unique {A : Type} (R : A -> A -> Prop) (l1 : list A) :
  forall l2,
    (forall x y, In x l1 -> In y l1 -> R x y -> R y x -> x = y) ->
    StronglySorted R l1 -> StronglySorted R l2 -> Permutation l1 l2 ->
    l1 = l2.
Proof.
  induction l1 as [|a l1 IH]; intros l2 anti S1 S2 P.
  - apply Permutation_nil in P. now subst.
  - destruct l2 as [|b l2].
    + apply Permutation_sym, Permutation_nil in P. discriminate.
    + apply StronglySorted_inv in S1 as [S1 F1].
      apply StronglySorted_inv in S2 as [S2 F2].
      rewrite Forall_forall in F1, F2.
      assert (a = b) as ->.
      { assert (In a (b :: l2)) as Ia
            by (eapply Permutation_in; [exact P | now left]).
        assert (In b (a :: l1)) as Ib
            by (eapply Permutation_in; [apply Permutation_sym; exact P | now left]).
        destruct Ia as [-> | Ia]; [reflexivity|].
        destruct Ib as [-> | Ib]; [reflexivity|].
        apply anti; [now left | now right | now apply F1 | now apply F2]. }
      f_equal. apply IH; auto.
      * intros x y Ix Iy. apply anti; now right.
      * eapply Permutation_cons_inv; eauto.
Qed.

Section SortBy.

Variable A : Type.
Variable leb : A -> A -> bool.

Hypothesis leb_total : forall x y, le_of leb x y \/ le_of leb y x.
Hypothesis leb_trans : forall x y z, le_of leb x y -> le_of leb y z -> le_of leb x z.

Lemma insert_permutation (x : A) (l : list A) :
  Permutation (insert leb x l) (x :: l).
Proof.
  induction l as [|y l IH]; simpl; [reflexivity|].
  destruct (leb x y); [reflexivity|].
  rewrite IH. apply perm_swap.
Qed.

Lemma sort_by_permutation (l : list A) : Permutation (sort_by leb l) l.
Proof.
  induction l as [|x l IH]; simpl; [reflexivity|].
  rewrite insert_permutation. now constructor.
Qed.

Lemma insert_sorted (x : A) (l : list A) :
  StronglySorted (le_of leb) l -> StronglySorted (le_of leb) (insert leb x l).
Proof.
  induction 1 as [|y l S IH F]; simpl.
  - constructor; constructor.
  - destruct (leb x y) eqn:E.
    + constructor; [now constructor|]. constructor; [exact E|].
      eapply Forall_impl; [|exact F]. intros z H.
      eapply leb_trans; [exact E | exact H].
    + constructor; [exact IH|].
      assert (le_of leb y x) as Le.
      { destruct (leb_total x y) as [H | H]; [unfold le_of in H; congruence | exact H]. }
      rewrite Forall_forall in *. intros z I.
      eapply Permutation_in in I; [|apply insert_permutation].
      destruct I as [<- | I]; auto.
Qed.

Lemma sort_by_sorted (l : list A) : StronglySorted (le_of leb) (sort_by leb l).
Proof.
  induction l as [|x l IH]; simpl; [constructor|].
  now apply insert_sorted.
Qed.

End SortBy.

Lemma sorted_ascending (l : list string) : ascending (sorted l).
Proof.
  apply sort_by_sorted.
  - apply String.leb_total.
  - apply le_str_trans.
Qed.

Lemma sorted_permutation (l : list string) : Permutation (sorted l) l.
Proof. apply sort_by_permutation. Qed.

(** [sorted] depends on the elements only, not on their order. *)
Lemma sorted_of_permutation (l1 l2 : list string) :
  Permutation l1 l2 -> sorted l1 = sorted l2.
Proof.
  intros P.
  apply (sorted_arrangement_unique le_str).
  - intros x y _ _. apply le_str_antisym.
  - apply sorted_ascending.
  - apply sorted_ascending.
  - rewrite !sorted_permutation. exact P.
Qed.

Lemma sorted_iter (set_iter : pyset -> list string) (s : pyset) :
  iteration set_iter -> sorted (set_iter s) = sorted s.
Proof. intros I. apply sorted_of_permutation, I. Qed.

Lemma mem_In (x : string) (l : list string) : mem x l = true <-> In x l.
Proof.
  unfold mem. rewrite existsb_exists. split.
  - intros [y [I E]]. apply String.eqb_eq in E. now subst.
  - intros I. exists x. split; [exact I | apply String.eqb_refl].
Qed.

(** *** Dictionaries and sets *)

Lemma dict_get_set {V : Type} (d : dict V) (k k' : string) (v : V) :
  dict_get (dict_set d k v) k' =
  if String.eqb k' k then Some v else dict_get d k'.
Proof.
  induction d as [|[k0 v0] d IH]; simpl.
  - reflexivity.
  - destruct (String.eqb_spec k k0) as [-> | N]; simpl.
    + destruct (String.eqb k' k0); reflexivity.
    + rewrite IH.
      destruct (String.eqb_spec k' k0) as [-> | N'].
      * destruct (String.eqb_spec k0 k); congruence.
      * reflexivity.
Qed.

Lemma dict_get_In {V : Type} (d : dict V) (k : string) (v : V) :
  dict_get d k = Some v -> In (k, v) d.
Proof.
  induction d as [|[k0 v0] d IH]; simpl; [discriminate|].
  destruct (String.eqb_spec k k0) as [-> | N].
  - intros [= ->]. now left.
  - intros H. right. auto.
Qed.

Lemma keys_dict_set {V : Type} (d : dict V) (k : string) (v : V) :
  keys (dict_set d k v) = if mem k (keys d) then keys d else keys d ++ [k].
Proof.
  induction d as [|[k0 v0] d IH]; simpl; [reflexivity|].
  unfold mem in *. simpl.
  destruct (String.eqb_spec k k0) as [-> | N]; simpl; [reflexivity|].
  unfold keys in *. rewrite IH.
  destruct (existsb (String.eqb k) (map fst d)); reflexivity.
Qed.

Lemma In_keys_dict_set {V : Type} (d : dict V) (k : string) (v : V) (x : string) :
  In x (keys (dict_set d k v)) <-> x = k \/ In x (keys d).
Proof.
  rewrite keys_dict_set.
  destruct (mem k (keys d)) eqn:M.
  - apply mem_In in M. split; [tauto|]. intros [-> | H]; assumption.
  - rewrite in_app_iff. simpl. intuition.
Qed.

Lemma NoDup_keys_dict_set {V : Type} (d : dict V) (k : string) (v : V) :
  NoDup (keys d) -> NoDup (keys (dict_set d k v)).
Proof.
  intros N. rewrite keys_dict_set.
  destruct (mem k (keys d)) eqn:M; [exact N|].
  apply NoDup_rev in N. rewrite <- (rev_involutive (keys d ++ [k])).
  apply NoDup_rev. rewrite rev_app_distr. simpl. constructor; [|exact N].
  rewrite <- in_rev. intros I. apply mem_In in I. congruence.
Qed.

Lemma dict_get_keys {V : Type} (d : dict V) (k : string) :
  In k (keys d) <-> exists v, dict_get d k = Some v.
Proof.
  induction d as [|[k0 v0] d IH]; simpl.
  - split; [tauto | intros [v [=]]].
  - destruct (String.eqb_spec k k0) as [-> | N].
    + split; eauto.
    + rewrite <- IH. intuition congruence.
Qed.

Lemma In_set_add (x y : string) (s : pyset) :
  In x (set_add y s) <-> x = y \/ In x s.
Proof.
  unfold set_add. destruct (mem y s) eqn:M.
  - apply mem_In in M. split; [tauto|]. intros [-> | H]; assumption.
  - rewrite in_app_iff. simpl. intuition.
Qed.

(** *** The inverted index *)

Lemma empty_indexes_values (tags : list string) :
  forall A vm, dict_get (empty_indexes tags) A = Some vm -> vm = [].
Proof.
  unfold empty_indexes.
  assert (forall d : indexes_t,
             (forall A vm, dict_get d A = Some vm -> vm = []) ->
             forall A vm,
               dict_get (fold_left (fun d tag => dict_set d tag ([] : value_map))
                                   tags d) A = Some vm -> vm = []) as G.
  { induction tags as [|t tags IH]; intros d Hd A vm; simpl; [apply Hd|].
    apply IH. intros A' vm'. rewrite dict_get_set.
    destruct (String.eqb A' t); [congruence | apply Hd]. }
  apply G. intros A vm. discriminate.
Qed.

Lemma keys_empty_indexes (tags : list string) :
  NoDup (keys (empty_indexes tags))
  /\ forall t, In t (keys (empty_indexes tags)) <-> In t tags.
Proof.
  unfold empty_indexes.
  assert (forall d : indexes_t, NoDup (keys d) ->
            let d' := fold_left (fun d tag => dict_set d tag ([] : value_map))
                                tags d in
            NoDup (keys d')
            /\ forall t, In t (keys d') <-> In t (keys d) \/ In t tags) as G.
  { induction tags as [|t0 tags IH]; intros d N; simpl.
    - split; [exact N | intros t; tauto].
    - destruct (IH (dict_set d t0 []) (NoDup_keys_dict_set _ _ _ N)) as [N' E].
      split; [exact N'|]. intros t. rewrite E, In_keys_dict_set.
      intuition. }
  destruct (G [] (NoDup_nil _)) as [N E]. split; [exact N|].
  intros t. rewrite E. simpl. tauto.
Qed.

(** The tags are keys of the fresh index: the lookup of [index_add]
    finds them. *)
Lemma empty_indexes_get (tags : list string) (tag : string) :
  In tag tags -> exists vm, dict_get (empty_indexes tags) tag = Some vm.
Proof.
  intros I. apply dict_get_keys. now apply keys_empty_indexes.
Qed.

Lemma keys_index_add (indexes : indexes_t) (tag value uid : string) :
  keys (index_add indexes tag value uid) = keys indexes.
Proof.
  unfold index_add. destruct (dict_get indexes tag) eqn:G; [|reflexivity].
  rewrite keys_dict_set.
  assert (In tag (keys indexes)) as I by (apply dict_get_keys; eauto).
  apply mem_In in I. now rewrite I.
Qed.

Lemma keys_index_row tags key missing (row : csv_row) (indexes : indexes_t) :
  keys (index_row tags key missing indexes row) = keys indexes.
Proof.
  unfold index_row. destruct (mem _ missing); [reflexivity|].
  revert indexes. induction tags as [|t tags IH]; intros indexes; simpl.
  - reflexivity.
  - rewrite IH. unfold index_cell.
    destruct (row_get row t); [|reflexivity].
    destruct (mem _ missing); [reflexivity | apply keys_index_add].
Qed.

Lemma keys_fold_index_row tags key missing (rows : list csv_row) :
  forall indexes,
    keys (fold_left (index_row tags key missing) rows indexes) = keys indexes.
Proof.
  induction rows as [|r rows IH]; intros indexes; simpl; [reflexivity|].
  rewrite IH. apply keys_index_row.
Qed.

Lemma justified_index_add key missing rows indexes A V id row :
  justified key missing rows indexes ->
  In row rows -> accounts_for key missing A V id row ->
  justified key missing rows (index_add indexes A V id).
Proof.
  intros J I Acc A' vm' V' uids' id'.
  unfold index_add. destruct (dict_get indexes A) as [vm|] eqn:G; [|apply J].
  rewrite dict_get_set.
  destruct (String.eqb_spec A' A) as [-> | NA]; [|apply J].
  intros [= <-]. unfold add_uid.
  assert (forall uids0,
             dict_get (dict_set vm V (set_add id uids0)) V' = Some uids' ->
             (uids0 = [] \/ dict_get vm V = Some uids0) ->
             In id' uids' ->
             exists r, In r rows /\ accounts_for key missing A V' id' r) as K.
  { intros uids0 G' O I'. rewrite dict_get_set in G'.
    destruct (String.eqb_spec V' V) as [-> | NV].
    - injection G' as <-. apply In_set_add in I' as [-> | I'].
      + exists row. auto.
      + destruct O as [-> | O]; [destruct I'|]. eapply J; eauto.
    - eapply J; eauto. }
  destruct (dict_get vm V) as [uids|] eqn:GV; intros G' I'.
  - eapply K; eauto.
  - eapply (K []); eauto.
Qed.

Lemma justified_index_row tags key missing rows indexes row :
  justified key missing rows indexes -> In row rows ->
  justified key missing rows (index_row tags key missing indexes row).
Proof.
  intros J I. unfold index_row.
  destruct (mem (strip (or_empty (row_get row key))) missing) eqn:M; [exact J|].
  revert indexes J. induction tags as [|t tags IH]; intros indexes J; simpl.
  - exact J.
  - apply IH. unfold index_cell.
    destruct (row_get row t) as [raw|] eqn:R; [|exact J].
    destruct (mem (strip raw) missing) eqn:MV; [exact J|].
    apply justified_index_add with (row := row); auto.
    repeat split; eauto.
Qed.

Lemma justified_fold tags key missing rows :
  forall seen indexes,
    (forall r, In r seen -> In r rows) ->
    justified key missing rows indexes ->
    justified key missing rows
              (fold_left (index_row tags key missing) seen indexes).
Proof.
  induction seen as [|r seen IH]; intros indexes Sub J; simpl; [exact J|].
  apply IH.
  - intros r' I'. apply Sub. now right.
  - apply justified_index_row; [exact J | apply Sub; now left].
Qed.

(** A row whose identifier is a missing token leaves the index as it is. *)
Lemma index_row_skip tags key missing indexes row :
  mem (row_uid key row) missing = true ->
  index_row tags key missing indexes row = indexes.
Proof. unfold index_row, row_uid. now intros ->. Qed.

Lemma fold_usable tags key missing fieldnames (data : records) :
  forall indexes,
    fold_left (index_row tags key missing)
              (DictReader_rows fieldnames (usable fieldnames key missing data))
              indexes
    = fold_left (index_row tags key missing)
                (DictReader_rows fieldnames data) indexes.
Proof.
  unfold DictReader_rows, usable.
  induction data as [|r data IH]; intros indexes; simpl; [reflexivity|].
  destruct (mem (row_uid key (DictReader_row fieldnames r)) missing) eqn:M;
    simpl; destruct (is_blank r) eqn:B; simpl; rewrite ?B; simpl; auto.
  rewrite index_row_skip by exact M. apply IH.
Qed.

(** With the empty string among the missing tokens, as in every run of
    [main], a usable identifier is the trimmed text of a cell that is
    there. *)
Lemma row_uid_cell key missing (row : csv_row) (id : string) :
  mem EmptyString missing = true ->
  row_uid key row = id -> mem id missing = false ->
  exists raw_uid, row_get row key = Some raw_uid /\ strip raw_uid = id.
Proof.
  unfold row_uid. intros E U M.
  destruct (row_get row key) as [raw|]; [eauto|].
  change (strip (or_empty None)) with EmptyString in U. subst id. congruence.
Qed.

(** C1. Index soundness: when [build_indexes] returns an index, every
    identifier [id] stored under value [V] of an attribute [A] comes
    from a row of the table whose cell for [A], trimmed, is [V] and is
    not a missing token, and whose key-column cell, trimmed, is [id]
    and is not a missing token ([accounts_for]; the key-column cell is
    there as soon as the empty string is a missing token); and the rows
    whose trimmed key-column value is a missing token contribute
    nothing: the index is the one built from the table without them. *)
Theorem build_indexes_sound :
  forall (rs : records) (tags : list string) (study_uid_column : string)
         (missing_tokens : list string) (indexes : indexes_t),
    build_indexes (Holds rs) tags study_uid_column missing_tokens = Ok indexes ->
    exists fieldnames data,
      rs = fieldnames :: data
      /\ (forall A vm V uids id,
             dict_get indexes A = Some vm ->
             dict_get vm V = Some uids ->
             In id uids ->
             In A tags
             /\ exists row,
                 In row (DictReader_rows fieldnames data)
                 /\ accounts_for study_uid_column missing_tokens A V id row
                 /\ (mem EmptyString missing_tokens = true ->
                     exists raw_uid,
                       row_get row study_uid_column = Some raw_uid
                       /\ strip raw_uid = id))
      /\ build_indexes
           (Holds (fieldnames
                     :: usable fieldnames study_uid_column missing_tokens data))
           tags study_uid_column missing_tokens = Ok indexes.
Proof.
  intros rs tags key missing indexes. unfold build_indexes, build_indexes_from.
  destruct rs as [|fieldnames data]; [discriminate|].
  destruct fieldnames as [|f fs]; [discriminate|].
  destruct (missing_tags (f :: fs) tags) eqn:MT; [|discriminate].
  destruct (negb (mem key (f :: fs))) eqn:MK; [discriminate|].
  intros [= <-]. exists (f :: fs), data. split; [reflexivity|]. split.
  - intros A vm V uids id GA GV I. split.
    + apply keys_empty_indexes.
      rewrite <- (keys_fold_index_row tags key missing
                    (DictReader_rows (f :: fs) data)).
      apply dict_get_keys. eauto.
    + assert (justified key missing (DictReader_rows (f :: fs) data)
                (fold_left (index_row tags key missing)
                           (DictReader_rows (f :: fs) data)
                           (empty_indexes tags))) as J.
      { apply justified_fold; [auto|].
        intros A' vm' V' uids' id' G'.
        apply empty_indexes_values in G'. subst vm'. discriminate. }
      destruct (J A vm V uids id GA GV I) as (row & Irow & Acc).
      exists row. split; [exact Irow|]. split; [exact Acc|].
      intros E. destruct Acc as (_ & _ & U & M).
      now apply (row_uid_cell key missing).
  - rewrite MT, MK, fold_usable. reflexivity.
Qed.

Lemma backwards_iteration : iteration Example.backwards.
Proof. intros s. apply Permutation_sym, Permutation_rev. Qed.

Lemma build_indexes_sound_witness :
  build_indexes (Holds Example.table) ["Modality"] "StudyInstanceUID"
                MISSING_TOKENS
  = Ok [("Modality", [("CT", ["S1"; "S2"])])]
  /\ exists fieldnames data,
      Example.table = fieldnames :: data
      /\ (forall A vm V uids id,
             dict_get [("Modality", [("CT", ["S1"; "S2"])])] A = Some vm ->
             dict_get vm V = Some uids ->
             In id uids ->
             In A ["Modality"]
             /\ exists row,
                 In row (DictReader_rows fieldnames data)
                 /\ accounts_for "StudyInstanceUID" MISSING_TOKENS A V id row
                 /\ (mem EmptyString MISSING_TOKENS = true ->
                     exists raw_uid,
                       row_get row "StudyInstanceUID" = Some raw_uid
                       /\ strip raw_uid = id))
      /\ build_indexes
           (Holds (fieldnames
                     :: usable fieldnames "StudyInstanceUID" MISSING_TOKENS data))
           ["Modality"] "StudyInstanceUID" MISSING_TOKENS
         = Ok [("Modality", [("CT", ["S1"; "S2"])])].
Proof.
  split; [reflexivity|].
  apply (build_indexes_sound Example.table ["Modality"] "StudyInstanceUID"
                             MISSING_TOKENS).
  reflexivity.
Defined.

(** *** Validation *)

(** What [main] does once the CSV is found and the tags are loaded. *)
Lemma index_main_reached set_iter (w : World) (args : Namespace)
      (tags : list string) :
  exists_ (csv_files w (csv args)) = true ->
  load_tags (text_files w (tags_file args)) = Ok tags ->
  main set_iter w args
  = match tags with
    | [] => Ok (fail "ERROR: Tags file is empty.")
    | _ =>
        match build_indexes (csv_files w (csv args)) tags
                            (BuildInvertedIndex.study_uid_column args)
                            (MISSING_TOKENS ++ map strip (missing_token args))
        with
        | Raise exc => Ok (fail ("ERROR: " ++ exn_str exc))
        | Ok indexes =>
            bind (perform w (BuildInvertedIndex.output_dir args)
                          (write_indexes set_iter indexes))
                 (fun done =>
                    Ok {| exit_code := 0; stderr := []; written := done |})
        end
    end.
Proof.
  intros Ex LT. unfold main.
  destruct (text_files w (tags_file args)) as [|text| | |]; try discriminate LT.
  destruct (csv_files w (csv args)) as [|rs| |rs e|st e]; try discriminate Ex;
    cbn [lookup_error guard exists_ negb]; rewrite LT; reflexivity.
Qed.

Lemma missing_tags_spec (fieldnames tags : list string) (t : string) :
  In t (missing_tags fieldnames tags) <-> In t tags /\ ~ In t fieldnames.
Proof.
  unfold missing_tags. rewrite filter_In, negb_true_iff.
  split; intros [I M]; (split; [exact I|]).
  - intros I'. apply mem_In in I'. congruence.
  - destruct (mem t fieldnames) eqn:E; [|reflexivity].
    apply mem_In in E. contradiction.
Qed.

Lemma missing_tags_nil (fieldnames tags : list string) :
  missing_tags fieldnames tags = [] <->
  forall t, In t tags -> In t fieldnames.
Proof.
  split.
  - intros E t I. destruct (mem t fieldnames) eqn:M; [now apply mem_In|].
    assert (In t (missing_tags fieldnames tags)) as H.
    { apply missing_tags_spec. split; [exact I|].
      intros I'. apply mem_In in I'. congruence. }
    rewrite E in H. destruct H.
  - intros H. destruct (missing_tags fieldnames tags) as [|t l] eqn:E; [reflexivity|].
    assert (In t (missing_tags fieldnames tags)) as I by (rewrite E; now left).
    apply missing_tags_spec in I as [I N]. destruct N. auto.
Qed.



(** *** The index writer *)

Lemma fold_write_tag set_iter (indexes : indexes_t) :
  forall writes manifest,
    fold_left (write_tag set_iter) indexes (writes, manifest)
    = (writes ++ map (tag_file set_iter) indexes,
       fold_left manifest_entry indexes manifest).
Proof.
  induction indexes as [|item indexes IH]; intros writes manifest; simpl.
  - now rewrite app_nil_r.
  - unfold write_tag at 2. simpl. rewrite IH, <- app_assoc. reflexivity.
Qed.

Lemma tag_writes_map set_iter (indexes : indexes_t) :
  tag_writes set_iter indexes = map (tag_file set_iter) indexes.
Proof. unfold tag_writes. now rewrite fold_write_tag. Qed.

Lemma index_manifest_fold set_iter (indexes : indexes_t) :
  index_manifest set_iter indexes = fold_left manifest_entry indexes [].
Proof. unfold index_manifest. now rewrite fold_write_tag. Qed.

Lemma serializable_iter set_iter (vm : value_map) :
  iteration set_iter ->
  serializable set_iter vm = serializable (fun s => s) vm.
Proof.
  intros I. unfold serializable. apply map_ext. intros item.
  now rewrite sorted_iter.
Qed.

(** The files written do not depend on the iteration order of sets. *)
Lemma write_indexes_iter set_iter (indexes : indexes_t) :
  iteration set_iter ->
  write_indexes set_iter indexes = write_indexes (fun s => s) indexes.
Proof.
  intros I. unfold write_indexes.
  rewrite !tag_writes_map, !index_manifest_fold. f_equal.
  apply map_ext. intros item. unfold tag_file.
  now rewrite serializable_iter.
Qed.

Lemma StronglySorted_map {A B : Type} (R : B -> B -> Prop) (f : A -> B)
      (l : list A) :
  StronglySorted (fun x y => R (f x) (f y)) l -> StronglySorted R (map f l).
Proof.
  induction 1 as [|a l S IH F]; simpl; constructor; auto.
  rewrite Forall_map. exact F.
Qed.

Lemma sort_keys_permutation (d : dict (list string)) :
  Permutation (sort_keys d) d.
Proof. apply sort_by_permutation. Qed.

Lemma sort_keys_ascending (d : dict (list string)) :
  ascending (map fst (sort_keys d)).
Proof.
  apply StronglySorted_map.
  apply (sort_by_sorted _ (fun item item' => String.leb (fst item) (fst item'))).
  - intros x y. apply String.leb_total.
  - intros x y z. apply le_str_trans.
Qed.

Lemma Forall_dict_set {V : Type} (P : string * V -> Prop) (d : dict V)
      (k : string) (v : V) :
  (forall k', P (k', v)) -> Forall P d -> Forall P (dict_set d k v).
Proof.
  intros Pv. induction 1 as [|[k0 v0] d P0 F IH]; simpl.
  - constructor; auto.
  - destruct (String.eqb k k0); constructor; auto.
Qed.

Lemma manifest_keys_NoDup (indexes : indexes_t) :
  forall manifest,
    NoDup (keys manifest) ->
    NoDup (keys (fold_left manifest_entry indexes manifest)).
Proof.
  induction indexes as [|item indexes IH]; intros manifest N; simpl; [exact N|].
  apply IH. now apply NoDup_keys_dict_set.
Qed.

Lemma manifest_keys (indexes : indexes_t) (name : string) :
  forall manifest,
    In name (keys (fold_left manifest_entry indexes manifest))
    <-> In name (keys manifest)
        \/ exists item, In item indexes /\ filename_of (fst item) = name.
Proof.
  induction indexes as [|item indexes IH]; intros manifest; simpl.
  - split; [tauto | intros [H | [i [[] _]]]; exact H].
  - rewrite IH. unfold manifest_entry. rewrite In_keys_dict_set. split.
    + intros [[-> | H] | [i [I E]]]; eauto.
    + intros [H | [i [[<- | I] E]]]; eauto.
Qed.

Lemma Forall_dict_set_key {V : Type} (P : string * V -> Prop) (d : dict V)
      (k : string) (v : V) :
  P (k, v) -> Forall P d -> Forall P (dict_set d k v).
Proof.
  intros Pv. induction 1 as [|[k0 v0] d P0 F IH]; simpl.
  - constructor; auto.
  - destruct (String.eqb_spec k k0) as [<- | NE]; constructor; auto.
Qed.

(** Every entry of the manifest is that of an attribute. *)
Lemma manifest_entries (all : indexes_t) (indexes : indexes_t) :
  forall manifest,
    incl indexes all ->
    Forall (fun entry =>
              exists item,
                In item all
                /\ fst entry = filename_of (fst item)
                /\ sorted_copy (snd entry) (keys (snd item))) manifest ->
    Forall (fun entry =>
              exists item,
                In item all
                /\ fst entry = filename_of (fst item)
                /\ sorted_copy (snd entry) (keys (snd item)))
           (fold_left manifest_entry indexes manifest).
Proof.
  induction indexes as [|item indexes IH]; intros manifest Sub F; simpl;
    [exact F|].
  apply IH; [intros x I; apply Sub; now right|].
  unfold manifest_entry. apply Forall_dict_set_key; [|exact F].
  exists item. split; [apply Sub; now left|]. split; [reflexivity|].
  split; [apply sorted_permutation | apply sorted_ascending].
Qed.

Lemma serializable_dumped set_iter (vm : value_map) :
  iteration set_iter -> dumped vm (sort_keys (serializable set_iter vm)).
Proof.
  intros I. split; [apply sort_keys_ascending|].
  pose proof (sort_keys_permutation (serializable set_iter vm)) as P.
  unfold serializable in P at 2.
  apply Permutation_map_inv in P as (order & E & P).
  exists order. split; [symmetry; exact P|]. rewrite E. clear E P.
  induction order as [|entry order IH]; simpl; constructor; [|exact IH].
  simpl. split; [reflexivity|]. split.
  - etransitivity; [apply sorted_permutation | apply I].
  - apply sorted_ascending.
Qed.

Lemma index_manifest_listed set_iter (indexes : indexes_t) :
  listed indexes (sort_keys (index_manifest set_iter indexes)).
Proof.
  pose proof (sort_keys_permutation (index_manifest set_iter indexes)) as P.
  split; [apply sort_keys_ascending|]. split; [|split].
  - eapply Permutation_NoDup;
      [symmetry; apply Permutation_map, P|].
    rewrite index_manifest_fold. apply manifest_keys_NoDup. constructor.
  - intros name.
    transitivity (In name (keys (index_manifest set_iter indexes))).
    + split; apply Permutation_in;
        [|symmetry]; apply Permutation_map, P.
    + rewrite index_manifest_fold, manifest_keys. split.
      * intros [[] | [[tag vm] [I <-]]]. exists tag, vm. auto.
      * intros (tag & vm & I & ->). right. exists (tag, vm). auto.
  - intros name values I.
    apply (Permutation_in _ P) in I.
    rewrite index_manifest_fold in I.
    pose proof (manifest_entries indexes indexes [] (incl_refl _)
                                 (Forall_nil _)) as F.
    rewrite Forall_forall in F.
    destruct (F _ I) as ([tag vm] & In_idx & Name & Values).
    exists tag, vm. auto.
Qed.

(** C5. The index writer writes one file for every attribute, in the
    order of the index, and then the manifest.  The file of an
    attribute holds the map of the attribute: one item for every value,
    the values in ascending order, each with the identifiers of its set
    in ascending order.  The manifest holds one item for every file
    name, the names in ascending order, each with the distinct values
    of an attribute of that file name in ascending order.  The files
    written, and the whole outcome of [main], are the same whatever
    order the interpreter iterates over sets in, so two runs on the
    same input write the same files. *)
Theorem write_indexes_deterministic :
  forall (set_iter : pyset -> list string) (indexes : indexes_t),
    iteration set_iter ->
    (exists files manifest_items,
        write_indexes set_iter indexes
        = files ++ [("index.json", json_object manifest_items)]
        /\ Forall2 (fun file item =>
                      fst file = (sanitize_filename (fst item) ++ ".json")%string
                      /\ exists items,
                          snd file = json_object items
                          /\ dumped (snd item) items)
                   files indexes
        /\ listed indexes manifest_items)
    /\ (forall set_iter',
           iteration set_iter' ->
           write_indexes set_iter' indexes = write_indexes set_iter indexes)
    /\ (forall set_iter' w args,
           iteration set_iter' ->
           main set_iter' w args = main set_iter w args).
Proof.
  intros set_iter indexes I. split; [|split].
  - exists (tag_writes set_iter indexes),
           (sort_keys (index_manifest set_iter indexes)).
    split; [reflexivity|]. split; [|apply index_manifest_listed].
    rewrite tag_writes_map.
    induction indexes as [|item indexes IH]; simpl; constructor;
      [|exact IH].
    split; [reflexivity|].
    exists (sort_keys (serializable set_iter (snd item))).
    split; [reflexivity | now apply serializable_dumped].
  - intros set_iter' I'.
    rewrite (write_indexes_iter set_iter'), (write_indexes_iter set_iter)
      by assumption.
    reflexivity.
  - intros set_iter' w args I'. unfold main.
    destruct (negb (exists_ (csv_files w (csv args)))); [reflexivity|].
    destruct (negb (exists_ (text_files w (tags_file args)))); [reflexivity|].
    destruct (load_tags (text_files w (tags_file args))) as [tags|e];
      [|reflexivity].
    cbn [bind]. destruct tags as [|t tags]; [reflexivity|].
    destruct (build_indexes _ _ _ _) as [idx|e]; [|reflexivity].
    rewrite (write_indexes_iter set_iter'), (write_indexes_iter set_iter)
      by assumption.
    reflexivity.
Qed.

Lemma write_indexes_deterministic_witness :
  iteration Example.backwards
  /\ (exists files manifest_items,
         write_indexes Example.backwards [("Modality", [("CT", ["S2"; "S1"])])]
         = files ++ [("index.json", json_object manifest_items)]
         /\ listed [("Modality", [("CT", ["S2"; "S1"])])] manifest_items)
  /\ forall set_iter',
      iteration set_iter' ->
      write_indexes set_iter' [("Modality", [("CT", ["S2"; "S1"])])]
      = write_indexes Example.backwards [("Modality", [("CT", ["S2"; "S1"])])].
Proof.
  split; [exact backwards_iteration|].
  destruct (write_indexes_deterministic
              Example.backwards [("Modality", [("CT", ["S2"; "S1"])])]
              backwards_iteration)
    as ((files & manifest_items & Writes & _ & Listed) & Same & _).
  split; [|exact Same].
  exists files, manifest_items. split; assumption.
Defined.

(** C6. On the table with header Filename, Modality, StudyInstanceUID
    and rows (a.dcm, CT, S1), (b.dcm, CT, S2), (c.dcm, Not found, S1),
    with key column StudyInstanceUID, attribute Modality and the default
    missing tokens, of which Not found is one, [build_indexes] returns
    the index Modality: CT: S1, S2, and [write_indexes] writes
    Modality.json with the object CT: [S1, S2] and then index.json with
    the single entry Modality.json: [CT]. *)
Theorem worked_example :
  forall set_iter : pyset -> list string,
    iteration set_iter ->
    mem "Not found" MISSING_TOKENS = true
    /\ build_indexes (Holds Example.table) ["Modality"] "StudyInstanceUID"
                     MISSING_TOKENS
       = Ok [("Modality", [("CT", ["S1"; "S2"])])]
    /\ write_indexes set_iter [("Modality", [("CT", ["S1"; "S2"])])]
       = [ ("Modality.json", json_object [("CT", ["S1"; "S2"])]);
           ("index.json", json_object [("Modality.json", ["CT"])]) ].
Proof.
  intros set_iter I. split; [reflexivity|]. split; [reflexivity|].
  rewrite write_indexes_iter by exact I. reflexivity.
Qed.

Lemma worked_example_witness :
  iteration Example.backwards
  /\ write_indexes Example.backwards [("Modality", [("CT", ["S1"; "S2"])])]
     = [ ("Modality.json", json_object [("CT", ["S1"; "S2"])]);
         ("index.json", json_object [("Modality.json", ["CT"])]) ].
Proof.
  split; [exact backwards_iteration|].
  apply (worked_example Example.backwards backwards_iteration).
Defined.

(** *** Attributes that share a file name *)

Lemma file_after_app (writes1 writes2 : list write) (name : string) :
  file_after (writes1 ++ writes2) name =
  match file_after writes2 name with
  | Some text => Some text
  | None => file_after writes1 name
  end.
Proof.
  induction writes1 as [|[n text] writes1 IH]; simpl.
  - destruct (file_after writes2 name); reflexivity.
  - rewrite IH. destruct (file_after writes2 name); reflexivity.
Qed.

Lemma file_after_none (writes : list write) (name : string) :
  (forall w, In w writes -> fst w <> name) -> file_after writes name = None.
Proof.
  induction writes as [|[n text] writes IH]; intros H; simpl; [reflexivity|].
  rewrite IH by (intros w I; apply H; now right).
  destruct (String.eqb_spec name n) as [-> | N]; [|reflexivity].
  destruct (H (n, text)); [now left | reflexivity].
Qed.

Lemma manifest_get_other (after : indexes_t) (name : string) :
  (forall item, In item after -> filename_of (fst item) <> name) ->
  forall manifest,
    dict_get (fold_left manifest_entry after manifest) name
    = dict_get manifest name.
Proof.
  induction after as [|item after IH]; intros H manifest; simpl; [reflexivity|].
  rewrite IH by (intros i I; apply H; now right).
  unfold manifest_entry. rewrite dict_get_set.
  destruct (String.eqb_spec name (filename_of (fst item))) as [E | N];
    [|reflexivity].
  destruct (H item); [now left | now symmetry].
Qed.

(** C10. When two attributes of the index give the same output file
    name, the writer writes both maps to that one path, the later after
    the earlier, so that the path ends up holding the map of the later
    one (the last attribute with that file name), and the manifest has
    one entry for the file name, with the distinct values of the later
    attribute only.  "Patient ID" and "Patient#ID" are such a pair. *)
Theorem write_indexes_collision :
  forall (set_iter : pyset -> list string) (indexes before between after : indexes_t)
         (tag1 tag2 : string) (vm1 vm2 : value_map),
    indexes = before ++ (tag1, vm1) :: between ++ (tag2, vm2) :: after ->
    tag1 <> tag2 ->
    filename_of tag1 = filename_of tag2 ->
    (forall item, In item after -> filename_of (fst item) <> filename_of tag2) ->
    let name := filename_of tag2 in
    tag_writes set_iter indexes
    = map (tag_file set_iter) before
      ++ (name, json_dump (serializable set_iter vm1))
      :: map (tag_file set_iter) between
      ++ (name, json_dump (serializable set_iter vm2))
      :: map (tag_file set_iter) after
    /\ file_after (tag_writes set_iter indexes) name
       = Some (json_dump (serializable set_iter vm2))
    /\ (name <> "index.json" ->
        file_after (write_indexes set_iter indexes) name
        = Some (json_dump (serializable set_iter vm2)))
    /\ dict_get (index_manifest set_iter indexes) name = Some (sorted (keys vm2))
    /\ NoDup (keys (index_manifest set_iter indexes))
    /\ sanitize_filename "Patient ID" = "Patient_ID"
    /\ sanitize_filename "Patient#ID" = "Patient_ID".
Proof.
  intros set_iter indexes before between after tag1 tag2 vm1 vm2 -> NE Same Last name.
  assert (file_after (map (tag_file set_iter) after) name = None) as After.
  { apply file_after_none. intros w I. apply in_map_iff in I as [item [<- I]].
    simpl. now apply Last. }
  assert (tag_writes set_iter
            (before ++ (tag1, vm1) :: between ++ (tag2, vm2) :: after)
          = map (tag_file set_iter) before
            ++ (name, json_dump (serializable set_iter vm1))
            :: map (tag_file set_iter) between
            ++ (name, json_dump (serializable set_iter vm2))
            :: map (tag_file set_iter) after) as Writes.
  { rewrite tag_writes_map, map_app. simpl. rewrite map_app. simpl.
    unfold tag_file at 2 4. simpl. fold name. now rewrite Same. }
  assert (file_after
            (tag_writes set_iter
               (before ++ (tag1, vm1) :: between ++ (tag2, vm2) :: after)) name
          = Some (json_dump (serializable set_iter vm2))) as Holds_it.
  { rewrite Writes.
    rewrite file_after_app. simpl. rewrite file_after_app. simpl.
    rewrite After. now rewrite String.eqb_refl. }
  split; [exact Writes|]. split; [exact Holds_it|]. split; [|split; [|split]].
  - intros NI. unfold write_indexes. rewrite file_after_app. simpl.
    destruct (String.eqb_spec name "index.json") as [E | _]; [contradiction|].
    exact Holds_it.
  - rewrite index_manifest_fold.
    rewrite fold_left_app. simpl. rewrite fold_left_app. simpl.
    rewrite manifest_get_other by exact Last.
    unfold manifest_entry at 1. simpl. rewrite dict_get_set.
    fold name. now rewrite String.eqb_refl.
  - rewrite index_manifest_fold. apply manifest_keys_NoDup. constructor.
  - split; reflexivity.
Qed.

Lemma write_indexes_collision_witness :
  [("Patient ID", [("P1", ["S1"])]); ("Patient#ID", [("P2", ["S2"])])]
  = [] ++ ("Patient ID", [("P1", ["S1"])]) :: []
       ++ ("Patient#ID", [("P2", ["S2"])]) :: []
  /\ "Patient ID" <> "Patient#ID"
  /\ filename_of "Patient ID" = "Patient_ID.json"
  /\ filename_of "Patient#ID" = "Patient_ID.json"
  /\ file_after
       (write_indexes Example.backwards
          [("Patient ID", [("P1", ["S1"])]); ("Patient#ID", [("P2", ["S2"])])])
       "Patient_ID.json"
     = Some (json_object [("P2", ["S2"])])
  /\ dict_get
       (index_manifest Example.backwards
          [("Patient ID", [("P1", ["S1"])]); ("Patient#ID", [("P2", ["S2"])])])
       "Patient_ID.json"
     = Some ["P2"]
  /\ keys (index_manifest Example.backwards
             [("Patient ID", [("P1", ["S1"])]); ("Patient#ID", [("P2", ["S2"])])])
     = ["Patient_ID.json"].
Proof.
  destruct (write_indexes_collision
              Example.backwards
              [("Patient ID", [("P1", ["S1"])]); ("Patient#ID", [("P2", ["S2"])])]
              [] [] [] "Patient ID" "Patient#ID"
              [("P1", ["S1"])] [("P2", ["S2"])]) as (_ & _ & File & Entry & _).
  - reflexivity.
  - discriminate.
  - reflexivity.
  - intros item [].
  - split; [reflexivity|]. split; [discriminate|].
    split; [reflexivity|]. split; [reflexivity|].
    split; [apply File; discriminate|].
    split; [exact Entry | reflexivity].
Defined.

(** *** The extraction engine *)

Import Dcmtag2table EngineSpec.

Lemma last_first_completion : completion last_first.
Proof. intros A l. apply Permutation_sym, Permutation_rev. Qed.

Section EngineProperties.

Variable value : Type.
Variable dcmread : string -> option (Dataset value).

Lemma read_cells_spec (ds : Dataset value) (tags : list string) :
  read_cells value ds tags =
  if readable ds tags then Some (map (expected_cell ds) tags) else None.
Proof.
  induction tags as [|tag tags IH]; simpl; [reflexivity|].
  rewrite IH. unfold expected_cell.
  destruct (ds tag); simpl; destruct (readable ds tags); reflexivity.
Qed.

Lemma readable_false (ds : Dataset value) (tags : list string) :
  readable ds tags = false -> exists tag, In tag tags /\ ds tag = Broken.
Proof.
  induction tags as [|tag tags IH]; simpl; [discriminate|].
  destruct (ds tag) eqn:E; simpl; eauto.
  - intros H. destruct (IH H) as [t [I B]]. eauto.
  - intros H. destruct (IH H) as [t [I B]]. eauto.
Qed.

(** A row that was read is the row of its file. *)
Lemma read_dicom_tags_some (filepath : string) (tags : list string) (r : row value) :
  _read_dicom_tags value dcmread filepath tags = Some r ->
  exists ds,
    dcmread filepath = Some ds /\ readable ds tags = true
    /\ r = {| Filename := filepath; cells := map (expected_cell ds) tags |}.
Proof.
  unfold _read_dicom_tags. destruct (dcmread filepath) as [ds|]; [|discriminate].
  rewrite read_cells_spec. destruct (readable ds tags) eqn:R; [|discriminate].
  simpl. intros [= <-]. exists ds. auto.
Qed.

Lemma collect_rows_In (completed : list (string * option (row value))) (r : row value) :
  In r (collect_rows value completed) <-> exists f, In (f, Some r) completed.
Proof.
  induction completed as [|[f [r'|]] completed IH]; simpl.
  - split; [tauto | intros [f []]].
  - rewrite IH. split.
    + intros [-> | [f' I]]; eauto.
    + intros [f' [[= _ ->] | I]]; eauto.
  - rewrite IH. split.
    + intros [f' I]; eauto.
    + intros [f' [[=] | I]]; eauto.
Qed.

Lemma collect_rows_permutation (l1 l2 : list (string * option (row value))) :
  Permutation l1 l2 ->
  Permutation (collect_rows value l1) (collect_rows value l2).
Proof.
  induction 1 as [|[f [r|]] l1 l2 P IH|[f [r|]] [f' [r'|]] l|l1 l2 l3 P1 IH1 P2 IH2];
    simpl; auto.
  - apply perm_swap.
  - eapply Permutation_trans; eauto.
Qed.


(** Rows of one file name are one row. *)
Lemma rows_of_a_file (tags paths : list string) (r1 r2 : row value) :
  In r1 (collect_rows value (futures_of dcmread tags paths)) ->
  In r2 (collect_rows value (futures_of dcmread tags paths)) ->
  Filename r1 = Filename r2 -> r1 = r2.
Proof.
  intros I1 I2 E.
  apply collect_rows_In in I1 as [f1 I1]. apply collect_rows_In in I2 as [f2 I2].
  unfold futures_of in *.
  apply in_map_iff in I1 as [g1 [[= -> R1] _]].
  apply in_map_iff in I2 as [g2 [[= -> R2] _]].
  destruct (read_dicom_tags_some _ _ _ R1) as (ds1 & D1 & _ & ->).
  destruct (read_dicom_tags_some _ _ _ R2) as (ds2 & D2 & _ & ->).
  simpl in E. subst f2. congruence.
Qed.

Lemma sort_rows_permutation (l : list (row value)) :
  Permutation (sort_rows value l) l.
Proof. apply sort_by_permutation. Qed.

Lemma sort_rows_sorted (l : list (row value)) :
  StronglySorted by_filename (sort_rows value l).
Proof.
  apply (sort_by_sorted _ (fun r r' => String.leb (Filename r) (Filename r'))).
  - intros x y. apply String.leb_total.
  - intros x y z. apply le_str_trans.
Qed.

(** The sorted table does not depend on the order of completion. *)
Lemma sort_rows_completed (tags paths : list string)
      (l1 l2 : list (string * option (row value))) :
  Permutation l1 (futures_of dcmread tags paths) ->
  Permutation l2 (futures_of dcmread tags paths) ->
  sort_rows value (collect_rows value l1) = sort_rows value (collect_rows value l2).
Proof.
  intros P1 P2.
  apply (sorted_arrangement_unique by_filename).
  - intros x y Ix Iy Lxy Lyx.
    apply (rows_of_a_file tags paths).
    + eapply Permutation_in; [|exact Ix].
      rewrite sort_rows_permutation. now apply collect_rows_permutation.
    + eapply Permutation_in; [|exact Iy].
      rewrite sort_rows_permutation. now apply collect_rows_permutation.
    + now apply le_str_antisym.
  - apply sort_rows_sorted.
  - apply sort_rows_sorted.
  - rewrite !sort_rows_permutation. apply collect_rows_permutation.
    rewrite P1. now symmetry.
Qed.

Lemma sort_values_Filename_spec (tags : list string) (rs : list (row value)) :
  sort_values_Filename value {| columns := "Filename" :: tags; rows := rs |}
  = if mem "Filename" tags
    then Raise (ValueError "The column label 'Filename' is not unique.")
    else Ok {| columns := "Filename" :: tags; rows := sort_rows value rs |}.
Proof.
  unfold sort_values_Filename. simpl.
  destruct (string_dec "Filename" "Filename") as [_ | N]; [|congruence].
  destruct (mem "Filename" tags) eqn:M.
  - apply mem_In in M. apply (count_occ_In string_dec) in M.
    destruct (count_occ string_dec tags "Filename"); [lia | reflexivity].
  - assert (~ In "Filename" tags) as N
        by (intros I; apply mem_In in I; congruence).
    apply (count_occ_not_In string_dec) in N. now rewrite N.
Qed.

End EngineProperties.



(** The engine, case by case. *)
Lemma dcmtag2table_from_file_list_cases
      (value : Type) (dcmread : string -> option (Dataset value))
      (as_completed : forall A : Type, list A -> list A)
      (filelist tags : list string) (max_workers : Z) :
  let paths := filter truthy filelist in
  let read := collect_rows value (as_completed _ (futures_of dcmread tags paths)) in
  dcmtag2table_from_file_list value dcmread as_completed filelist tags max_workers
  = match paths with
    | [] => Ok {| columns := "Filename" :: tags; rows := [] |}
    | _ =>
        match ProcessPoolExecutor max_workers with
        | Some exc => Raise exc
        | None =>
            match read with
            | [] => Ok {| columns := "Filename" :: tags; rows := [] |}
            | _ =>
                if mem "Filename" tags
                then Raise (ValueError
                              "The column label 'Filename' is not unique.")
                else Ok {| columns := "Filename" :: tags;
                           rows := sort_rows value read |}
            end
        end
    end.
Proof.
  intros paths read. unfold dcmtag2table_from_file_list. fold paths.
  destruct paths as [|p paths'] eqn:E; [reflexivity|].
  destruct (ProcessPoolExecutor max_workers); [reflexivity|].
  cbn [guard rows]. unfold futures_of in read. fold read.
  destruct read as [|r read'] eqn:R; [reflexivity|].
  apply sort_values_Filename_spec.
Qed.




(** C3. For a file that [dcmread] opens, the row of [_read_dicom_tags]
    starts with the path and has one cell for every requested attribute,
    in order: the value of the attribute when the file has it, the
    string "Not found" when it has not.  A cell is null exactly when the
    file has the attribute and its value there is null; the cell of an
    attribute the file has not is never null.  The file is skipped only
    when reading the value of an attribute it has raises, never because
    an attribute is absent. *)
Theorem read_dicom_tags_row :
  forall (value : Type) (none : value -> bool)
         (dcmread : string -> option (Dataset value))
         (filepath : string) (tags : list string) (ds : Dataset value),
    dcmread filepath = Some ds ->
    let result := _read_dicom_tags value dcmread filepath tags in
    (forall r,
        result = Some r ->
        Filename r = filepath
        /\ List.length (cells r) = List.length tags
        /\ (forall i tag,
               nth_error tags i = Some tag ->
               ds tag <> Broken
               /\ nth_error (cells r) i
                  = Some (match ds tag with
                          | Present v => Value v
                          | _ => Str "Not found"
                          end))
        /\ (forall i c,
               nth_error (cells r) i = Some c ->
               (null none c = true
                <-> exists tag v,
                     nth_error tags i = Some tag
                     /\ ds tag = Present v /\ none v = true)
               /\ (forall tag,
                      nth_error tags i = Some tag -> ds tag = Absent ->
                      c = Str "Not found" /\ null none c = false)))
    /\ ((forall tag, In tag tags -> ds tag <> Broken) -> exists r, result = Some r)
    /\ (result = None -> exists tag, In tag tags /\ ds tag = Broken).
Proof.
  intros value none dcmread filepath tags ds D result. subst result.
  unfold _read_dicom_tags. rewrite D, read_cells_spec.
  split; [|split].
  - intros r. destruct (readable ds tags) eqn:R; [|discriminate].
    simpl. intros [= <-]. simpl.
    assert (forall tag, In tag tags -> ds tag <> Broken) as Whole.
    { intros tag I B. unfold readable in R.
      rewrite forallb_forall in R. specialize (R tag I).
      rewrite B in R. discriminate. }
    split; [reflexivity|]. split; [apply length_map|]. split.
    + intros i tag N. split; [eapply Whole, nth_error_In, N|].
      apply (map_nth_error (expected_cell ds)) in N.
      rewrite N. unfold expected_cell. destruct (ds tag); reflexivity.
    + intros i c N. rewrite nth_error_map in N.
      destruct (nth_error tags i) as [tag|] eqn:T; [|discriminate].
      injection N as <-.
      pose proof (Whole tag (nth_error_In _ _ T)) as NB.
      unfold expected_cell. split; [split|].
      * destruct (ds tag) as [|v|] eqn:E; simpl; try discriminate.
        intros Null. exists tag, v. auto.
      * intros (tag' & v & [= <-] & E & Null). rewrite E. exact Null.
      * intros tag' [= <-] E. rewrite E. split; reflexivity.
  - intros OK. destruct (readable ds tags) eqn:R; [simpl; eauto|].
    apply readable_false in R as [tag [I B]]. destruct (OK tag I B).
  - destruct (readable ds tags) eqn:R; [discriminate|].
    intros _. now apply readable_false.
Qed.

Lemma read_dicom_tags_row_witness :
  reader "a.dcm" = Some (fun tag => if String.eqb tag "Modality" then Present "CT"
                                    else Absent)
  /\ exists r, _read_dicom_tags string reader "a.dcm" ["StudyDate"; "Modality"]
               = Some r.
Proof.
  split; [reflexivity|].
  destruct (read_dicom_tags_row
              string (fun _ => false) reader "a.dcm" ["StudyDate"; "Modality"]
              (fun tag => if String.eqb tag "Modality" then Present "CT"
                          else Absent)
              eq_refl) as (_ & Read & _).
  apply Read. intros tag _. cbv beta.
  destruct (String.eqb tag "Modality"); discriminate.
Defined.

(** C3 as stated fails: a file that is read with an attribute present
    and empty, of a representation for which [pydicom] gives [None],
    has a row with a null cell. *)
Lemma read_dicom_tags_null_cell :
  _read_dicom_tags ExampleNull.value ExampleNull.reader "empty.dcm"
                   ["SeriesNumber"; "PatientID"; "Modality"]
  = Some {| Filename := "empty.dcm";
            cells := [Value None; Value (Some EmptyString);
                      Str "Not found"] |}
  /\ null ExampleNull.none (Value None) = true.
Proof. split; reflexivity. Qed.

(** *** Repeated attributes *)

Lemma build_indexes_keys (rs : records) (tags : list string)
      (study_uid_column : string) (missing_tokens : list string)
      (indexes : indexes_t) :
  build_indexes (Holds rs) tags study_uid_column missing_tokens = Ok indexes ->
  NoDup (keys indexes) /\ forall tag, In tag (keys indexes) <-> In tag tags.
Proof.
  unfold build_indexes, build_indexes_from.
  destruct rs as [|[|f fs] data]; try discriminate.
  destruct (missing_tags (f :: fs) tags); [|discriminate].
  destruct (negb (mem study_uid_column (f :: fs))); [discriminate|].
  intros [= <-]. rewrite keys_fold_index_row. apply keys_empty_indexes.
Qed.

Lemma dcmtag2table_rows
      (value : Type) (dcmread : string -> option (Dataset value))
      (as_completed : forall A : Type, list A -> list A)
      (filelist tags : list string) (max_workers : Z) (df : DataFrame value) :
  completion as_completed ->
  dcmtag2table_from_file_list value dcmread as_completed filelist tags max_workers
  = Ok df ->
  columns df = "Filename" :: tags
  /\ forall r,
      In r (rows df) ->
      exists ds,
        dcmread (Filename r) = Some ds
        /\ cells r = map (expected_cell ds) tags.
Proof.
  intros C. rewrite dcmtag2table_from_file_list_cases. cbv zeta.
  set (paths := filter truthy filelist).
  assert (forall r,
             In r (collect_rows value
                     (as_completed _ (futures_of dcmread tags paths))) ->
             exists ds, dcmread (Filename r) = Some ds
                        /\ cells r = map (expected_cell ds) tags) as Read.
  { intros r I. apply collect_rows_In in I as [f I].
    eapply Permutation_in in I; [|apply C].
    unfold futures_of in I. apply in_map_iff in I as [g [[= -> R] _]].
    apply read_dicom_tags_some in R as (ds & D & _ & ->). simpl. eauto. }
  destruct paths as [|p paths'].
  - intros [= <-]. simpl. split; [reflexivity | intros r []].
  - destruct (ProcessPoolExecutor max_workers); [discriminate|].
    destruct (collect_rows value _) as [|r0 rs] eqn:R.
    + intros [= <-]. simpl. split; [reflexivity | intros r []].
    + destruct (mem "Filename" tags); [discriminate|].
      intros [= <-]. cbn [columns rows]. split; [reflexivity|].
      intros r I. apply Read.
      eapply Permutation_in; [apply (sort_rows_permutation value (r0 :: rs)) | exact I].
Qed.

(** C7 (amended). An attribute name that occurs several times in the
    attribute list gives one column per occurrence in the extraction
    table: the header is Filename followed by the list as it is, and
    every row has one cell per occurrence.  The index builder keeps its
    maps in a dictionary keyed by attribute name: its output holds one
    map per distinct name, whatever the number of occurrences. *)
Theorem repeated_attributes :
  forall (value : Type) (dcmread : string -> option (Dataset value))
         (as_completed : forall A : Type, list A -> list A)
         (filelist tags : list string) (max_workers : Z),
    completion as_completed ->
    (forall df,
        dcmtag2table_from_file_list value dcmread as_completed
                                    filelist tags max_workers = Ok df ->
        columns df = "Filename" :: tags
        /\ forall r,
            In r (rows df) ->
            exists ds,
              dcmread (Filename r) = Some ds
              /\ cells r = map (expected_cell ds) tags)
    /\ (forall rs study_uid_column missing_tokens indexes,
           build_indexes (Holds rs) tags study_uid_column missing_tokens
           = Ok indexes ->
           NoDup (keys indexes)
           /\ forall tag, In tag (keys indexes) <-> In tag tags).
Proof.
  intros value dcmread as_completed filelist tags max_workers C. split.
  - intros df. now apply dcmtag2table_rows.
  - intros rs key missing indexes. apply build_indexes_keys.
Qed.

Lemma repeated_attributes_witness :
  completion last_first
  /\ (forall df,
         dcmtag2table_from_file_list string reader last_first
                                     ["a.dcm"] ["Modality"; "Modality"] 4 = Ok df ->
         columns df = ["Filename"; "Modality"; "Modality"]
         /\ forall r,
             In r (rows df) ->
             exists ds,
               reader (Filename r) = Some ds
               /\ cells r = map (expected_cell ds) ["Modality"; "Modality"]).
Proof.
  split; [exact last_first_completion|].
  apply (repeated_attributes string reader last_first
                             ["a.dcm"] ["Modality"; "Modality"] 4
                             last_first_completion).
Defined.

(** C7 as stated fails for the index builder: two occurrences of
    Modality give one map. *)
Lemma repeated_attributes_one_map :
  build_indexes (Holds Example.table) ["Modality"; "Modality"]
                "StudyInstanceUID" MISSING_TOKENS
  = Ok [("Modality", [("CT", ["S1"; "S2"])])]
  /\ List.length ["Modality"; "Modality"] = 2%nat
  /\ List.length [("Modality", [("CT", ["S1"; "S2"])])] = 1%nat.
Proof. repeat split. Qed.

(** *** The worker count *)




Lemma first_first_completion : completion first_first.
Proof. intros A l. reflexivity. Qed.



(** *** The attribute list resolver *)

Import ResolverSpec.

Lemma collect_tags_entries (lines : list string) :
  collect_tags lines = filter is_entry (map strip lines).
Proof.
  induction lines as [|line lines IH]; simpl; [reflexivity|].
  unfold is_entry at 1.
  destruct (String.eqb (strip line) EmptyString || startswith "#" (strip line));
    simpl; now rewrite IH.
Qed.

(** C9 (amended). When the override path, if one is given, names
    nothing or names a file that can be read as text, the attribute
    list resolver returns a list, which is never empty: the built-in
    list when no path is given (or an empty one) or nothing exists at
    the path; otherwise the lines of the file trimmed of whitespace,
    without the blank ones and those that begin with [#], or the
    built-in list when no line remains.  When the path exists and
    cannot be read as text, or when its look-up itself raises (a home
    directory that cannot be expanded, a name the system refuses), the
    resolver raises; and whenever the resolver raises, [main] ends with
    exit code 1. *)
Theorem load_tags_resolves :
  forall (fs : string -> entry string) (tags_file : option string),
    ((forall name,
         tags_file = Some name -> name <> EmptyString ->
         fs name = Missing \/ exists text, fs name = Holds text) ->
     exists tags,
       Main.load_tags fs tags_file = Ok tags
       /\ tags <> []
       /\ (tags_file = None -> tags = Main.DEFAULT_TAGS)
       /\ (tags_file = Some EmptyString -> tags = Main.DEFAULT_TAGS)
       /\ (forall name,
              tags_file = Some name -> fs name = Missing ->
              tags = Main.DEFAULT_TAGS)
       /\ (forall name text,
              tags_file = Some name -> name <> EmptyString ->
              fs name = Holds text ->
              tags = match entries text with
                     | [] => Main.DEFAULT_TAGS
                     | kept => kept
                     end))
    /\ (forall name,
           tags_file = Some name -> name <> EmptyString ->
           fs name = Unreadable
           \/ (exists text exc, fs name = Cut text exc)
           \/ (exists s exc, fs name = Invalid s exc) ->
           exists exc, Main.load_tags fs tags_file = Raise exc)
    /\ (forall (value : Type) (dcmread : string -> option (Dataset value))
               (as_completed : forall A : Type, list A -> list A)
               (w : Main.World) (args : Main.Namespace) (exc : exn),
           Main.load_tags (Main.text_files w) (Main.tags_file args) = Raise exc ->
           Main.exit_code value (Main.main value dcmread as_completed w args)
           = 1%Z).
Proof.
  intros fs tags_file.
  assert (Main.DEFAULT_TAGS <> []) as Default by discriminate.
  split; [|split].
  - intros Readable. destruct tags_file as [name|].
    + destruct (String.eqb_spec name EmptyString) as [-> | NE].
      * exists Main.DEFAULT_TAGS. simpl. repeat split; auto.
        intros name text [= <-]. congruence.
      * pose proof NE as NE'. apply String.eqb_neq in NE'.
        destruct (Readable name eq_refl NE) as [F | [text F]].
        -- exists Main.DEFAULT_TAGS. unfold Main.load_tags. rewrite NE', F.
           repeat split; auto. intros name' text [= <-]. congruence.
        -- exists (Main.or_default (collect_tags (splitlines text))).
           unfold Main.load_tags. rewrite NE', F.
           split; [reflexivity|]. split; [|split; [|split; [|split]]].
           ++ unfold Main.or_default.
              destruct (collect_tags (splitlines text));
                [exact Default | discriminate].
           ++ discriminate.
           ++ intros [= E]. congruence.
           ++ intros name' [= <-]. congruence.
           ++ intros name' text' [= <-] _ F'. rewrite F in F'.
              injection F' as <-.
              unfold Main.or_default, entries. rewrite collect_tags_entries.
              destruct (filter is_entry (map strip (splitlines text)));
                reflexivity.
    + exists Main.DEFAULT_TAGS. simpl. repeat split; auto; discriminate.
  - intros name -> NE Bad. unfold Main.load_tags.
    apply String.eqb_neq in NE. rewrite NE.
    destruct Bad as [-> | [(text & exc & ->) | (st & exc & ->)]]; eauto.
  - intros value dcmread ac w args exc Raises.
    unfold Main.main, Main.run.
    destruct (Main.path_exists w (Main.manifest args)) as [[|]|e0];
      cbn [bind negb]; try reflexivity.
    destruct (Main.load_manifest w) as [filelist|e1]; cbn [bind];
      [|reflexivity].
    rewrite Raises. reflexivity.
Qed.

Lemma load_tags_resolves_witness :
  (forall name,
      Some "dicomtags.txt" = Some name -> name <> EmptyString ->
      files name = Missing \/ exists text, files name = Holds text)
  /\ Main.load_tags files (Some "dicomtags.txt") = Ok ["PatientID"; "Modality"]
  /\ exists tags,
      Main.load_tags files (Some "dicomtags.txt") = Ok tags /\ tags <> [].
Proof.
  assert (forall name,
             Some "dicomtags.txt" = Some name -> name <> EmptyString ->
             files name = Missing \/ exists text, files name = Holds text)
    as Readable by (intros name [= <-] _; right; eexists; reflexivity).
  split; [exact Readable|]. split; [reflexivity|].
  destruct (load_tags_resolves files (Some "dicomtags.txt")) as [Lists _].
  destruct (Lists Readable) as (tags & Loads & Nonempty & _).
  exists tags. split; assumption.
Defined.

(** C9 as stated fails: an override path that exists and cannot be read
    as text makes the resolver raise. *)
Lemma load_tags_raises :
  Main.load_tags directories (Some "dicomtags.txt")
  = Raise (OSError "cannot read text").
Proof. reflexivity. Qed.

(* ================================================================== *)
(** ** Further properties of the code *)
(* ================================================================== *)

Import StringSpec.

(** *** Stripping *)

Lemma lstrip_with_first (p : ascii -> bool) (s : string) (c : ascii) :
  first_char (lstrip_with p s) = Some c -> p c = false.
Proof.
  induction s as [|d s IH]; simpl; [discriminate|].
  destruct (p d) eqn:E; [exact IH|].
  simpl. now intros [= <-].
Qed.

Lemma rstrip_with_last (p : ascii -> bool) (s : string) (c : ascii) :
  last_char (rstrip_with p s) = Some c -> p c = false.
Proof.
  induction s as [|d s IH]; simpl; [discriminate|].
  destruct (rstrip_with p s) as [|e r] eqn:R.
  - destruct (p d) eqn:E; simpl; [discriminate|]. now intros [= <-].
  - simpl. exact IH.
Qed.

Lemma rstrip_with_first (p : ascii -> bool) (s : string) (c : ascii) :
  (forall d, first_char s = Some d -> p d = false) ->
  first_char (rstrip_with p s) = Some c -> p c = false.
Proof.
  destruct s as [|d s]; simpl; [discriminate|].
  intros H. specialize (H d eq_refl).
  destruct (rstrip_with p s); [rewrite H|]; simpl; now intros [= <-].
Qed.

Lemma lstrip_with_fixed (p : ascii -> bool) (s : string) :
  (forall c, first_char s = Some c -> p c = false) -> lstrip_with p s = s.
Proof.
  destruct s as [|d s]; simpl; [reflexivity|].
  intros H. now rewrite (H d eq_refl).
Qed.

Lemma rstrip_with_fixed (p : ascii -> bool) (s : string) :
  (forall c, last_char s = Some c -> p c = false) -> rstrip_with p s = s.
Proof.
  induction s as [|d s IH]; simpl; [reflexivity|].
  intros H. destruct s as [|e s].
  - simpl. now rewrite (H d eq_refl).
  - rewrite IH by exact H. reflexivity.
Qed.

(** What is left after stripping has nothing more to strip. *)
Lemma strip_with_trimmed (p : ascii -> bool) (s : string) :
  trimmed_of p (rstrip_with p (lstrip_with p s)).
Proof.
  split.
  - intros c. apply rstrip_with_first. intros d. apply lstrip_with_first.
  - intros c. apply rstrip_with_last.
Qed.

Lemma trimmed_fixed (p : ascii -> bool) (s : string) :
  trimmed_of p s -> rstrip_with p (lstrip_with p s) = s.
Proof.
  intros [F L]. rewrite lstrip_with_fixed by exact F.
  now apply rstrip_with_fixed.
Qed.

Lemma strip_idempotent (s : string) : strip (strip s) = strip s.
Proof. apply trimmed_fixed, strip_with_trimmed. Qed.

Lemma all_chars_lstrip (p q : ascii -> bool) (s : string) :
  all_chars q s = true -> all_chars q (lstrip_with p s) = true.
Proof.
  induction s as [|d s IH]; simpl; [reflexivity|].
  intros H. apply andb_true_iff in H as [Hd Hs].
  destruct (p d); [auto|]. simpl. now rewrite Hd.
Qed.

Lemma all_chars_rstrip (p q : ascii -> bool) (s : string) :
  all_chars q s = true -> all_chars q (rstrip_with p s) = true.
Proof.
  induction s as [|d s IH]; simpl; [reflexivity|].
  intros H. apply andb_true_iff in H as [Hd Hs].
  specialize (IH Hs).
  destruct (rstrip_with p s) as [|e r].
  - destruct (p d); simpl; [reflexivity | now rewrite Hd].
  - simpl in *. now rewrite Hd.
Qed.

(** *** File names *)

Lemma sub_unsafe_safe (in_run : bool) (s : string) :
  all_chars is_safe (sub_unsafe in_run s) = true.
Proof.
  revert in_run. induction s as [|c s IH]; intros in_run; simpl; [reflexivity|].
  destruct (is_safe c) eqn:E; simpl.
  - now rewrite E, IH.
  - destruct in_run; simpl; now rewrite ?IH.
Qed.

Lemma sub_unsafe_fixed (in_run : bool) (s : string) :
  all_chars is_safe s = true -> sub_unsafe in_run s = s.
Proof.
  revert in_run. induction s as [|c s IH]; intros in_run; simpl; [reflexivity|].
  intros H. apply andb_true_iff in H as [Hc Hs].
  now rewrite Hc, IH.
Qed.

Lemma all_chars_In (p : ascii -> bool) (s : string) (c : ascii) :
  all_chars p s = true -> In c (list_ascii_of_string s) -> p c = true.
Proof.
  induction s as [|d s IH]; simpl; [tauto|].
  intros H. apply andb_true_iff in H as [Hd Hs].
  intros [<- | I]; auto.
Qed.

Lemma sanitize_filename_facts (tag : string) :
  sanitize_filename tag <> EmptyString
  /\ all_chars is_safe (sanitize_filename tag) = true
  /\ trimmed_of (fun c => char_in c "._") (sanitize_filename tag).
Proof.
  unfold sanitize_filename, strip_chars.
  set (p := fun c => char_in c "._").
  set (safe := rstrip_with p (lstrip_with p (sub_unsafe false tag))).
  assert (all_chars is_safe safe = true) as Safe
      by (apply all_chars_rstrip, all_chars_lstrip, sub_unsafe_safe).
  assert (trimmed_of p safe) as Trim by apply strip_with_trimmed.
  destruct (String.eqb_spec safe EmptyString) as [E | NE].
  - split; [discriminate|]. split; [reflexivity|].
    split; intros c; simpl; intros [= <-]; reflexivity.
  - auto.
Qed.

(** X1. The file name [sanitize_filename] gives is never empty, is made
    of letters, digits, dots, underscores and hyphens only (so it holds
    no path separator), and neither begins nor ends with a dot or an
    underscore. *)
Theorem sanitize_filename_shape :
  forall tag : string,
    let name := sanitize_filename tag in
    name <> EmptyString
    /\ all_chars is_safe name = true
    /\ (forall c, In c (list_ascii_of_string name) -> c <> "/"%char)
    /\ trimmed_of (fun c => char_in c "._") name.
Proof.
  intros tag name. subst name.
  destruct (sanitize_filename_facts tag) as (NE & Safe & Trim).
  split; [exact NE|]. split; [exact Safe|]. split; [|exact Trim].
  intros c I ->. apply (all_chars_In _ _ _ Safe) in I. discriminate.
Qed.

(** X2. Sanitizing is idempotent: a file name that [sanitize_filename]
    gave is left as it is by [sanitize_filename]. *)
Theorem sanitize_filename_idempotent :
  forall tag : string,
    sanitize_filename (sanitize_filename tag) = sanitize_filename tag.
Proof.
  intros tag.
  destruct (sanitize_filename_facts tag) as (NE & Safe & Trim).
  unfold sanitize_filename at 1. unfold strip_chars.
  rewrite sub_unsafe_fixed by exact Safe.
  rewrite trimmed_fixed by exact Trim.
  apply String.eqb_neq in NE. now rewrite NE.
Qed.

(** *** Tags files *)

Import IndexSpec.

Lemma collect_tags_well_formed (lines : list string) (tag : string) :
  In tag (collect_tags lines) ->
  well_formed_tag tag /\ exists line, In line lines /\ tag = strip line.
Proof.
  induction lines as [|line lines IH]; simpl; [tauto|].
  destruct (String.eqb_spec (strip line) EmptyString) as [E | NE]; simpl.
  - intros I. destruct (IH I) as [W [l [Il El]]]. eauto.
  - destruct (startswith "#" (strip line)) eqn:S.
    + intros I. destruct (IH I) as [W [l [Il El]]]. eauto.
    + intros [<- | I].
      * split; [|eauto]. repeat split; auto using strip_idempotent.
      * destruct (IH I) as [W [l [Il El]]]. eauto.
Qed.

(** X3. Both [load_tags] return attribute names that are not empty,
    carry no whitespace at either end and do not begin with [#]; those
    read from a file are trimmed lines of it, and the list returned by
    the one of [main.py] is never empty. *)
Theorem load_tags_well_formed :
  forall (fs : string -> entry string) (tags_file : option string)
         (path : entry string) (tags : list string),
    (BuildInvertedIndex.load_tags path = Ok tags ->
     exists text,
       path = Holds text
       /\ forall tag, In tag tags ->
                      well_formed_tag tag
                      /\ exists line, In line (splitlines text) /\ tag = strip line)
    /\ (Main.load_tags fs tags_file = Ok tags ->
        tags <> [] /\ forall tag, In tag tags -> well_formed_tag tag).
Proof.
  intros fs tags_file path tags.
  assert (forall tag, In tag Main.DEFAULT_TAGS -> well_formed_tag tag) as Default.
  { intros tag I. unfold Main.DEFAULT_TAGS in I. simpl in I.
    repeat (destruct I as [<- | I];
            [split; [discriminate | split; reflexivity]|]).
    destruct I. }
  split.
  - destruct path as [|text| | |]; simpl; try discriminate.
    intros [= <-]. exists text. split; [reflexivity|].
    intros tag. apply collect_tags_well_formed.
  - unfold Main.load_tags.
    destruct tags_file as [name|]; [|intros [= <-]; split; [discriminate | exact Default]].
    destruct (String.eqb name EmptyString);
      [intros [= <-]; split; [discriminate | exact Default]|].
    destruct (fs name) as [|text| | |];
      [intros [= <-]; split; [discriminate | exact Default]|
       |discriminate|discriminate|discriminate].
    intros [= <-]. unfold Main.or_default.
    destruct (collect_tags (splitlines text)) as [|t ts] eqn:E.
    + split; [discriminate | exact Default].
    + split; [discriminate|]. intros tag I. rewrite <- E in I.
      now apply collect_tags_well_formed in I.
Qed.

Lemma load_tags_well_formed_witness :
  BuildInvertedIndex.load_tags (Holds ExampleRun.tags_text)
  = Ok ["StudyDate"; "Modality"; "AccessionNumber"]
  /\ exists text,
      Holds ExampleRun.tags_text = Holds text
      /\ forall tag,
          In tag ["StudyDate"; "Modality"; "AccessionNumber"] ->
          well_formed_tag tag
          /\ exists line, In line (splitlines text) /\ tag = strip line.
Proof.
  split; [reflexivity|].
  destruct (load_tags_well_formed
              (fun _ => Missing) None (Holds ExampleRun.tags_text)
              ["StudyDate"; "Modality"; "AccessionNumber"]) as [Index _].
  apply Index. reflexivity.
Defined.

(** *** Completeness and shape of the index *)

Lemma recorded_index_add (indexes : indexes_t) (A V id A' V' id' : string) :
  recorded indexes A V id -> recorded (index_add indexes A' V' id') A V id.
Proof.
  intros (vm & uids & GA & GV & I). unfold index_add.
  destruct (dict_get indexes A') as [vm'|] eqn:G'; [|exists vm, uids; auto].
  destruct (String.eqb_spec A A') as [-> | NA].
  - assert (vm' = vm) as -> by congruence.
    unfold add_uid.
    destruct (String.eqb_spec V V') as [-> | NV].
    + rewrite GV. exists (dict_set vm V' (set_add id' uids)), (set_add id' uids).
      rewrite !dict_get_set, !String.eqb_refl.
      repeat split. apply In_set_add. now right.
    + exists (match dict_get vm V' with
              | Some uids' => dict_set vm V' (set_add id' uids')
              | None => dict_set vm V' (set_add id' [])
              end), uids.
      rewrite dict_get_set, String.eqb_refl. split; [reflexivity|].
      split; [|exact I].
      apply String.eqb_neq in NV.
      destruct (dict_get vm V'); rewrite dict_get_set, NV; exact GV.
  - exists vm, uids. rewrite dict_get_set.
    apply String.eqb_neq in NA. rewrite NA. auto.
Qed.

Lemma index_add_recorded (indexes : indexes_t) (A V id : string) :
  In A (keys indexes) -> recorded (index_add indexes A V id) A V id.
Proof.
  intros I. apply dict_get_keys in I as [vm G]. unfold index_add. rewrite G.
  unfold add_uid.
  destruct (dict_get vm V) as [uids|].
  - exists (dict_set vm V (set_add id uids)), (set_add id uids).
    rewrite !dict_get_set, !String.eqb_refl. repeat split.
    apply In_set_add. now left.
  - exists (dict_set vm V (set_add id [])), (set_add id []).
    rewrite !dict_get_set, !String.eqb_refl. repeat split.
    apply In_set_add. now left.
Qed.

Lemma recorded_index_cell missing (row : csv_row) (uid : string)
      (indexes : indexes_t) (tag A V id : string) :
  recorded indexes A V id ->
  recorded (index_cell missing row uid indexes tag) A V id.
Proof.
  intros R. unfold index_cell. destruct (row_get row tag); [|exact R].
  destruct (mem _ missing); [exact R | now apply recorded_index_add].
Qed.

Lemma keys_index_cell missing (row : csv_row) (uid : string)
      (indexes : indexes_t) (tag : string) :
  keys (index_cell missing row uid indexes tag) = keys indexes.
Proof.
  unfold index_cell. destruct (row_get row tag); [|reflexivity].
  destruct (mem _ missing); [reflexivity | apply keys_index_add].
Qed.

Lemma recorded_fold_cells missing (row : csv_row) (uid : string)
      (tags : list string) (A V id : string) :
  forall indexes,
    recorded indexes A V id ->
    recorded (fold_left (index_cell missing row uid) tags indexes) A V id.
Proof.
  induction tags as [|t tags IH]; intros indexes R; simpl; [exact R|].
  apply IH. now apply recorded_index_cell.
Qed.

Lemma fold_cells_recorded missing (row : csv_row) (uid : string)
      (tags : list string) (tag raw : string) :
  In tag tags -> row_get row tag = Some raw -> mem (strip raw) missing = false ->
  forall indexes,
    In tag (keys indexes) ->
    recorded (fold_left (index_cell missing row uid) tags indexes)
             tag (strip raw) uid.
Proof.
  intros I G M. induction tags as [|t tags IH]; [destruct I|].
  intros indexes K. simpl.
  destruct I as [-> | I].
  - apply recorded_fold_cells. unfold index_cell. rewrite G, M.
    now apply index_add_recorded.
  - apply IH; [exact I|]. now rewrite keys_index_cell.
Qed.

Lemma recorded_index_row tags key missing (indexes : indexes_t)
      (row : csv_row) (A V id : string) :
  recorded indexes A V id ->
  recorded (index_row tags key missing indexes row) A V id.
Proof.
  intros R. unfold index_row. destruct (mem _ missing); [exact R|].
  now apply recorded_fold_cells.
Qed.

Lemma recorded_fold_rows tags key missing (rows : list csv_row) (A V id : string) :
  forall indexes,
    recorded indexes A V id ->
    recorded (fold_left (index_row tags key missing) rows indexes) A V id.
Proof.
  induction rows as [|r rows IH]; intros indexes R; simpl; [exact R|].
  apply IH. now apply recorded_index_row.
Qed.

Lemma fold_rows_recorded tags key missing (rows : list csv_row)
      (row : csv_row) (tag raw : string) :
  In row rows -> In tag tags ->
  row_get row tag = Some raw -> mem (strip raw) missing = false ->
  mem (row_uid key row) missing = false ->
  forall indexes,
    In tag (keys indexes) ->
    recorded (fold_left (index_row tags key missing) rows indexes)
             tag (strip raw) (row_uid key row).
Proof.
  intros Ir It G MV MU. induction rows as [|r rows IH]; [destruct Ir|].
  intros indexes K. simpl. destruct Ir as [-> | Ir].
  - apply recorded_fold_rows. unfold index_row.
    fold (row_uid key row). rewrite MU.
    now apply fold_cells_recorded.
  - apply IH; [exact Ir|]. now rewrite keys_index_row.
Qed.

(** X4. Index completeness: when [build_indexes] returns an index, every
    row with a usable identifier is recorded under each requested
    attribute for which it has a cell that, trimmed, is not a missing
    token: the identifier is in the set kept under that trimmed value. *)
Theorem build_indexes_complete :
  forall (fieldnames : list string) (data : records) (tags : list string)
         (study_uid_column : string) (missing_tokens : list string)
         (indexes : indexes_t) (row : csv_row) (tag raw_value : string),
    build_indexes (Holds (fieldnames :: data)) tags study_uid_column
                  missing_tokens = Ok indexes ->
    In row (DictReader_rows fieldnames data) ->
    In tag tags ->
    row_get row tag = Some raw_value ->
    mem (strip raw_value) missing_tokens = false ->
    mem (row_uid study_uid_column row) missing_tokens = false ->
    recorded indexes tag (strip raw_value) (row_uid study_uid_column row).
Proof.
  intros fieldnames data tags key missing indexes row tag raw.
  unfold build_indexes, build_indexes_from.
  destruct fieldnames as [|f fs]; [discriminate|].
  destruct (missing_tags (f :: fs) tags); [|discriminate].
  destruct (negb (mem key (f :: fs))); [discriminate|].
  intros [= <-] Ir It G MV MU.
  apply fold_rows_recorded; auto.
  now apply keys_empty_indexes.
Qed.

Lemma build_indexes_complete_witness :
  build_indexes (Holds Example.table) ["Modality"] "StudyInstanceUID"
                MISSING_TOKENS
  = Ok [("Modality", [("CT", ["S1"; "S2"])])]
  /\ recorded [("Modality", [("CT", ["S1"; "S2"])])] "Modality" "CT" "S2".
Proof.
  split; [reflexivity|].
  apply (build_indexes_complete
           ["Filename"; "Modality"; "StudyInstanceUID"]
           (tl Example.table) ["Modality"] "StudyInstanceUID" MISSING_TOKENS
           [("Modality", [("CT", ["S1"; "S2"])])]
           (DictReader_row ["Filename"; "Modality"; "StudyInstanceUID"]
                           ["b.dcm"; "CT"; "S2"])
           "Modality" "CT");
    try reflexivity.
  - right. now left.
  - now left.
Defined.

Lemma NoDup_set_add (x : string) (s : pyset) : NoDup s -> NoDup (set_add x s).
Proof.
  intros N. unfold set_add. destruct (mem x s) eqn:M; [exact N|].
  apply NoDup_rev in N. rewrite <- (rev_involutive (s ++ [x])).
  apply NoDup_rev. rewrite rev_app_distr. simpl. constructor; [|exact N].
  rewrite <- in_rev. intros I. apply mem_In in I. congruence.
Qed.

Lemma set_add_nonempty (x : string) (s : pyset) : set_add x s <> [].
Proof.
  unfold set_add. destruct (mem x s) eqn:M.
  - intros ->. discriminate.
  - destruct s; discriminate.
Qed.

Lemma well_formed_add_uid (vm : value_map) (V id : string) :
  well_formed_map vm -> well_formed_map (add_uid vm V id).
Proof.
  intros [N F]. unfold add_uid.
  assert (forall uids, NoDup uids ->
                       well_formed_map (dict_set vm V (set_add id uids))) as K.
  { intros uids Nu. split; [now apply NoDup_keys_dict_set|].
    apply Forall_dict_set; [|exact F].
    intros k'. simpl. split; [apply set_add_nonempty | now apply NoDup_set_add]. }
  destruct (dict_get vm V) as [uids|] eqn:G.
  - apply K. apply dict_get_In in G. rewrite Forall_forall in F.
    apply (F _ G).
  - apply K. constructor.
Qed.

Lemma well_formed_index_add (indexes : indexes_t) (A V id : string) :
  Forall (fun item => well_formed_map (snd item)) indexes ->
  Forall (fun item => well_formed_map (snd item)) (index_add indexes A V id).
Proof.
  intros F. unfold index_add.
  destruct (dict_get indexes A) as [vm|] eqn:G; [|exact F].
  apply Forall_dict_set; [|exact F].
  intros k'. simpl. apply well_formed_add_uid.
  apply dict_get_In in G. rewrite Forall_forall in F. apply (F _ G).
Qed.

Lemma well_formed_index_row tags key missing (indexes : indexes_t) (row : csv_row) :
  Forall (fun item => well_formed_map (snd item)) indexes ->
  Forall (fun item => well_formed_map (snd item))
         (index_row tags key missing indexes row).
Proof.
  intros F. unfold index_row. destruct (mem _ missing); [exact F|].
  revert indexes F. induction tags as [|t tags IH]; intros indexes F; simpl;
    [exact F|].
  apply IH. unfold index_cell. destruct (row_get row t); [|exact F].
  destruct (mem _ missing); [exact F | now apply well_formed_index_add].
Qed.

Lemma well_formed_fold_rows tags key missing (rows : list csv_row) :
  forall indexes,
    Forall (fun item => well_formed_map (snd item)) indexes ->
    Forall (fun item => well_formed_map (snd item))
           (fold_left (index_row tags key missing) rows indexes).
Proof.
  induction rows as [|r rows IH]; intros indexes F; simpl; [exact F|].
  apply IH. now apply well_formed_index_row.
Qed.

Lemma well_formed_empty_indexes (tags : list string) :
  Forall (fun item => well_formed_map (snd item)) (empty_indexes tags).
Proof.
  apply Forall_forall. intros [tag vm] I. simpl.
  assert (vm = []) as ->.
  { assert (forall d : indexes_t,
               Forall (fun item => snd item = ([] : value_map)) d ->
               Forall (fun item => snd item = ([] : value_map))
                      (fold_left (fun d tag => dict_set d tag ([] : value_map))
                                 tags d)) as G.
    { clear I. induction tags as [|t ts IH]; intros d Fd; simpl; [exact Fd|].
      apply IH. apply Forall_dict_set; [intros k'; reflexivity | exact Fd]. }
    specialize (G [] (Forall_nil _)). rewrite Forall_forall in G.
    apply (G _ I). }
  split; constructor.
Qed.

Lemma build_indexes_well_formed_aux (rs : records) (tags : list string)
      (key : string) (missing : list string) (indexes : indexes_t) :
  build_indexes (Holds rs) tags key missing = Ok indexes ->
  Forall (fun item => well_formed_map (snd item)) indexes.
Proof.
  unfold build_indexes, build_indexes_from.
  destruct rs as [|[|f fs] data]; try discriminate.
  destruct (missing_tags (f :: fs) tags); [|discriminate].
  destruct (negb (mem key (f :: fs))); [discriminate|].
  intros [= <-]. apply well_formed_fold_rows, well_formed_empty_indexes.
Qed.

(** X5. The index [build_indexes] returns is well formed: one map per
    distinct requested attribute, in the order of first occurrence
    untouched by the rows; in each map the values are distinct, and each
    value carries a set of identifiers that is not empty and lists no
    identifier twice. *)
Theorem build_indexes_well_formed :
  forall (rs : records) (tags : list string) (study_uid_column : string)
         (missing_tokens : list string) (indexes : indexes_t),
    build_indexes (Holds rs) tags study_uid_column missing_tokens = Ok indexes ->
    keys indexes = keys (empty_indexes tags)
    /\ NoDup (keys indexes)
    /\ forall tag vm,
        dict_get indexes tag = Some vm ->
        NoDup (keys vm)
        /\ forall V uids,
            dict_get vm V = Some uids -> uids <> [] /\ NoDup uids.
Proof.
  intros rs tags key missing indexes B.
  pose proof (build_indexes_well_formed_aux _ _ _ _ _ B) as F.
  pose proof (build_indexes_keys _ _ _ _ _ B) as [N _].
  split; [|split; [exact N|]].
  - revert B. unfold build_indexes, build_indexes_from.
    destruct rs as [|[|f fs] data]; try discriminate.
    destruct (missing_tags (f :: fs) tags); [|discriminate].
    destruct (negb (mem key (f :: fs))); [discriminate|].
    intros [= <-]. apply keys_fold_index_row.
  - intros tag vm G. apply dict_get_In in G.
    rewrite Forall_forall in F. destruct (F _ G) as [Nk Fv]. simpl in *.
    split; [exact Nk|]. intros V uids GV. apply dict_get_In in GV.
    rewrite Forall_forall in Fv. apply (Fv _ GV).
Qed.

Lemma build_indexes_well_formed_witness :
  build_indexes (Holds Example.table) ["Modality"; "Filename"; "Modality"]
                "StudyInstanceUID" MISSING_TOKENS
  = Ok [("Modality", [("CT", ["S1"; "S2"])]);
        ("Filename", [("a.dcm", ["S1"]); ("b.dcm", ["S2"]); ("c.dcm", ["S1"])])]
  /\ NoDup (keys [("Modality", [("CT", ["S1"; "S2"])]);
                  ("Filename",
                   [("a.dcm", ["S1"]); ("b.dcm", ["S2"]); ("c.dcm", ["S1"])])]).
Proof.
  split; [reflexivity|].
  apply (build_indexes_well_formed
           Example.table ["Modality"; "Filename"; "Modality"]
           "StudyInstanceUID" MISSING_TOKENS).
  reflexivity.
Defined.

(** X6. [build_indexes] returns an index exactly when the CSV is read
    to its end as records (it exists, opens, and neither the decoding
    nor the [csv] module raises on the way) and the table has a header
    that is not blank and holds every requested attribute and the key
    column.  In a file read to its end no data row makes it fail,
    whatever its cells and their number. *)
Theorem build_indexes_succeeds :
  forall (csv_path : entry records) (tags : list string)
         (study_uid_column : string) (missing_tokens : list string),
    (exists indexes,
        build_indexes csv_path tags study_uid_column missing_tokens
        = Ok indexes)
    <-> (exists fieldnames data,
            csv_path = Holds (fieldnames :: data)
            /\ fieldnames <> []
            /\ (forall tag, In tag tags -> In tag fieldnames)
            /\ In study_uid_column fieldnames).
Proof.
  intros csv_path tags key missing. split.
  - intros [indexes B].
    destruct csv_path as [|rs| |rs exc|st exc]; try discriminate B.
    + revert B. unfold build_indexes, build_indexes_from.
      destruct rs as [|[|f fs] data]; try discriminate.
      destruct (missing_tags (f :: fs) tags) eqn:MT; [|discriminate].
      destruct (mem key (f :: fs)) eqn:MK; [|discriminate].
      intros _. exists (f :: fs), data. split; [reflexivity|].
      split; [discriminate|].
      split; [now apply missing_tags_nil | now apply mem_In].
    + cbn [build_indexes] in B. destruct rs as [|r rs]; [discriminate|].
      destruct (build_indexes_from (r :: rs) tags key missing); discriminate.
  - intros (fieldnames & data & -> & NE & All & K).
    unfold build_indexes, build_indexes_from.
    destruct fieldnames as [|f fs]; [congruence|].
    apply missing_tags_nil in All. rewrite All.
    apply mem_In in K. rewrite K. simpl. eauto.
Qed.

(** *** The files of the index writer *)

(** X7. [write_indexes] writes one file per attribute of the index and
    then the manifest: whatever the attributes are, [index.json] ends
    up holding the manifest, also when an attribute has that file name
    (its own file is then lost); and the manifest has an entry for a
    file name exactly when a file of that name was written for an
    attribute. *)
Theorem write_indexes_manifest :
  forall (set_iter : pyset -> list string) (indexes : indexes_t),
    List.length (write_indexes set_iter indexes) = S (List.length indexes)
    /\ file_after (write_indexes set_iter indexes) "index.json"
       = Some (json_dump (index_manifest set_iter indexes))
    /\ forall name,
        In name (keys (index_manifest set_iter indexes))
        <-> In name (map fst (tag_writes set_iter indexes)).
Proof.
  intros set_iter indexes. unfold write_indexes. split; [|split].
  - rewrite length_app, tag_writes_map, length_map. simpl. lia.
  - rewrite file_after_app. reflexivity.
  - intros name. rewrite index_manifest_fold, manifest_keys, tag_writes_map.
    rewrite map_map. rewrite in_map_iff. simpl. split.
    + intros [[] | [item [I E]]]. exists item. auto.
    + intros [item [E I]]. right. exists item. auto.
Qed.

(** X8. The file of an attribute holds its map, and the manifest lists
    its distinct values in ascending order, whenever no attribute that
    comes later in the index has the same file name (and the name is
    not that of the manifest): among attributes of one file name, the
    last one wins. *)
Theorem write_indexes_last_wins :
  forall (set_iter : pyset -> list string) (before after : indexes_t)
         (tag : string) (vm : value_map),
    (forall item, In item after -> filename_of (fst item) <> filename_of tag) ->
    let indexes := before ++ (tag, vm) :: after in
    dict_get (index_manifest set_iter indexes) (filename_of tag)
    = Some (sorted (keys vm))
    /\ (filename_of tag <> "index.json" ->
        file_after (write_indexes set_iter indexes) (filename_of tag)
        = Some (json_dump (serializable set_iter vm))).
Proof.
  intros set_iter before after tag vm Last indexes. subst indexes. split.
  - rewrite index_manifest_fold, fold_left_app. simpl.
    rewrite manifest_get_other by exact Last.
    unfold manifest_entry. simpl. rewrite dict_get_set.
    now rewrite String.eqb_refl.
  - intros NI. unfold write_indexes. rewrite file_after_app. simpl.
    destruct (String.eqb_spec (filename_of tag) "index.json") as [E | _];
      [contradiction|].
    rewrite tag_writes_map, map_app. simpl. rewrite file_after_app. simpl.
    rewrite file_after_none.
    + unfold tag_file at 1. simpl. now rewrite String.eqb_refl.
    + intros w I. apply in_map_iff in I as [item [<- I]]. simpl.
      now apply Last.
Qed.

Lemma write_indexes_last_wins_witness :
  (forall item,
      In item [("Series Number", [("2", ["S2"])])] ->
      filename_of (fst item) <> filename_of "Modality")
  /\ file_after
       (write_indexes Example.backwards
          [("Patient ID", [("P1", ["S1"])]);
           ("Modality", [("CT", ["S2"; "S1"])]);
           ("Series Number", [("2", ["S2"])])])
       "Modality.json"
     = Some (json_object [("CT", ["S1"; "S2"])]).
Proof.
  assert (forall item,
             In item [("Series Number", [("2", ["S2"])])] ->
             filename_of (fst item) <> filename_of "Modality") as Last
      by (intros item [<- | []]; discriminate).
  split; [exact Last|].
  destruct (write_indexes_last_wins
              Example.backwards [("Patient ID", [("P1", ["S1"])])]
              [("Series Number", [("2", ["S2"])])]
              "Modality" [("CT", ["S2"; "S1"])] Last) as [_ File].
  apply File. discriminate.
Defined.

(** *** The command of the index builder *)


Lemma write_all_done (w : World) (dir : string) (writes done : list write) :
  write_all w dir writes = Ok done ->
  done = writes /\ forall name text, In (name, text) writes -> open_w w dir name = None.
Proof.
  revert done. induction writes as [|[name text] writes IH]; intros done; simpl.
  - intros [= <-]. split; [reflexivity | intros n t []].
  - destruct (open_w w dir name) eqn:O; cbn [guard]; [discriminate|].
    destruct (write_all w dir writes) as [rest|exc]; cbn [bind]; [|discriminate].
    intros [= <-]. destruct (IH rest eq_refl) as [-> Open].
    split; [reflexivity|]. intros n t [[= <- <-] | I]; eauto.
Qed.

Lemma write_all_raises (w : World) (dir : string) (writes : list write)
      (name text : string) (exc : exn) :
  In (name, text) writes -> open_w w dir name = Some exc ->
  exists raised, write_all w dir writes = Raise raised.
Proof.
  intros I O. induction writes as [|[n t] writes IH]; [destruct I|].
  simpl. destruct (open_w w dir n) eqn:On; cbn [guard]; [eauto|].
  destruct I as [[= -> ->] | I]; [congruence|].
  destruct (IH I) as [raised ->]. cbn [bind]. eauto.
Qed.

(** X9. A run of [build_inverted_index.py] that ends without an
    exception ends with exit code 0 or 1.  With 0 it has printed no
    error, the output directory was made and every file opened, and the
    files written are those of [write_indexes] for the index built from
    the tags of the tags file; with 1 it has printed one line that
    begins with ERROR: and has written no file at all.  Two kinds of
    error are not caught and end the run with an exception: a tags file
    that exists and cannot be read, the CSV being there; and, once the
    index is built, an output directory that cannot be made or a file of
    it that cannot be opened. *)
Theorem index_main_outcome :
  forall (set_iter : pyset -> list string) (w : World) (args : Namespace),
    (forall out,
        main set_iter w args = Ok out ->
        (exit_code out = 0%Z
         /\ stderr out = []
         /\ exists tags indexes,
             load_tags (text_files w (tags_file args)) = Ok tags
             /\ build_indexes (csv_files w (csv args)) tags
                              (BuildInvertedIndex.study_uid_column args)
                              (MISSING_TOKENS ++ map strip (missing_token args))
                = Ok indexes
             /\ written out = write_indexes set_iter indexes
             /\ mkdir w (BuildInvertedIndex.output_dir args) = None
             /\ forall name text,
                 In (name, text) (write_indexes set_iter indexes) ->
                 open_w w (BuildInvertedIndex.output_dir args) name = None)
        \/ (exit_code out = 1%Z
            /\ written out = []
            /\ exists message,
                stderr out = [message] /\ startswith "ERROR: " message = true))
    /\ (exists_ (csv_files w (csv args)) = true ->
        text_files w (tags_file args) = Unreadable
        \/ (exists text exc, text_files w (tags_file args) = Cut text exc) ->
        exists exc, main set_iter w args = Raise exc)
    /\ (forall tags indexes,
           exists_ (csv_files w (csv args)) = true ->
           load_tags (text_files w (tags_file args)) = Ok tags ->
           tags <> [] ->
           build_indexes (csv_files w (csv args)) tags
                         (BuildInvertedIndex.study_uid_column args)
                         (MISSING_TOKENS ++ map strip (missing_token args))
           = Ok indexes ->
           (exists exc, mkdir w (BuildInvertedIndex.output_dir args) = Some exc)
           \/ (exists name text exc,
                  In (name, text) (write_indexes set_iter indexes)
                  /\ open_w w (BuildInvertedIndex.output_dir args) name
                     = Some exc) ->
           exists exc, main set_iter w args = Raise exc).
Proof.
  intros set_iter w args.
  assert (forall text, startswith "ERROR: " ("ERROR: " ++ text) = true) as Err.
  { intros text. unfold startswith. simpl. destruct text; reflexivity. }
  assert (forall message,
             startswith "ERROR: " message = true ->
             exit_code (fail message) = 1%Z
             /\ written (fail message) = []
             /\ exists m, stderr (fail message) = [m]
                          /\ startswith "ERROR: " m = true) as Fail.
  { intros message S. repeat split. exists message. auto. }
  split; [|split].
  - intros out.
    destruct (exists_ (csv_files w (csv args))) eqn:Ex.
    + destruct (load_tags (text_files w (tags_file args))) as [tags|e] eqn:LT.
      * rewrite (index_main_reached set_iter w args tags Ex LT).
        destruct tags as [|t ts]; [intros [= <-]; right; now apply Fail|].
        destruct (build_indexes _ _ _ _) as [indexes|exc] eqn:B;
          [|intros [= <-]; right; apply Fail, Err].
        unfold perform.
        destruct (mkdir w (BuildInvertedIndex.output_dir args)) eqn:MK;
          cbn [guard bind]; [discriminate|].
        destruct (write_all w _ _) as [done|exc] eqn:WA; cbn [bind];
          [|discriminate].
        intros [= <-]. left. cbn [exit_code stderr written].
        destruct (write_all_done _ _ _ _ WA) as [-> Open].
        split; [reflexivity|]. split; [reflexivity|].
        exists (t :: ts), indexes. auto.
      * unfold main.
        destruct (csv_files w (csv args)) as [|rs| |rs e0|st e0];
          try discriminate Ex;
          destruct (text_files w (tags_file args)) as [|text| |text e1|[|] e1];
          cbn [lookup_error stage_eqb guard exists_ negb load_tags bind];
          try discriminate;
          try (intros [= <-]; right; now apply Fail);
          discriminate LT.
    + unfold main.
      destruct (csv_files w (csv args)) as [|rs| |rs e0|[|] e0];
        try discriminate Ex;
        destruct (text_files w (tags_file args)) as [|text| |text e1|[|] e1];
        cbn [lookup_error stage_eqb guard exists_ negb];
        try discriminate;
        intros [= <-]; right; now apply Fail.
  - intros Ex Bad. unfold main.
    destruct (csv_files w (csv args)) as [|rs| |rs e0|st e0];
      try discriminate Ex;
      destruct Bad as [-> | (text & exc & ->)];
      cbn [lookup_error guard exists_ negb load_tags bind]; eauto.
  - intros tags indexes Ex LT NE B Bad.
    rewrite (index_main_reached set_iter w args tags Ex LT).
    destruct tags as [|t ts]; [congruence|]. rewrite B. unfold perform.
    destruct Bad as [[exc MK] | (name & text & exc & I & O)].
    + rewrite MK. cbn [guard bind]. eauto.
    + destruct (mkdir w _); cbn [guard bind]; [eauto|].
      destruct (write_all_raises _ _ _ _ _ _ I O) as [raised ->].
      cbn [bind]. eauto.
Qed.

Lemma index_main_outcome_witness :
  main Example.backwards ExampleRun.world ExampleRun.args
  = Ok (fail "ERROR: CSV is missing tag columns: AccessionNumber, StudyDate")
  /\ written (fail "ERROR: CSV is missing tag columns: AccessionNumber, StudyDate")
     = [].
Proof.
  split; [reflexivity|].
  destruct (index_main_outcome Example.backwards ExampleRun.world ExampleRun.args)
    as [Ends _].
  destruct (Ends _ eq_refl) as [(Zero & _) | (_ & Nothing & _)].
  - discriminate Zero.
  - exact Nothing.
Defined.



(** *** The rows of the table as a set *)

(** What an index records is what the rows account for. *)
Lemma build_indexes_recorded (fieldnames : list string) (data : records)
      (tags : list string) (key : string) (missing : list string)
      (indexes : indexes_t) (A V id : string) :
  build_indexes (Holds (fieldnames :: data)) tags key missing = Ok indexes ->
  recorded indexes A V id
  <-> In A tags
      /\ exists row,
          In row (DictReader_rows fieldnames data)
          /\ accounts_for key missing A V id row.
Proof.
  unfold build_indexes, build_indexes_from.
  destruct fieldnames as [|f fs]; [discriminate|].
  destruct (missing_tags (f :: fs) tags); [|discriminate].
  destruct (negb (mem key (f :: fs))); [discriminate|].
  intros [= <-]. split.
  - intros (vm & uids & GA & GV & I). split.
    + apply keys_empty_indexes.
      rewrite <- (keys_fold_index_row tags key missing
                    (DictReader_rows (f :: fs) data)).
      apply dict_get_keys. eauto.
    + assert (justified key missing (DictReader_rows (f :: fs) data)
                (fold_left (index_row tags key missing)
                           (DictReader_rows (f :: fs) data)
                           (empty_indexes tags))) as J.
      { apply justified_fold; [auto|].
        intros A' vm' V' uids' id' G'.
        apply empty_indexes_values in G'. subst vm'. discriminate. }
      eapply J; eauto.
  - intros (It & row & Ir & (raw & G & <-) & MV & <- & MU).
    apply fold_rows_recorded; auto. now apply keys_empty_indexes.
Qed.

Lemma NoDup_keys_get {V : Type} (d : dict V) (k : string) (v : V) :
  NoDup (keys d) -> In (k, v) d -> dict_get d k = Some v.
Proof.
  induction d as [|[k0 v0] d IH]; simpl; [tauto|].
  intros N. apply NoDup_cons_iff in N as [N0 N].
  intros [[= -> ->] | I].
  - now rewrite String.eqb_refl.
  - destruct (String.eqb_spec k k0) as [-> | NE]; [|auto].
    destruct N0. change (In (fst (k0, v)) (map fst d)). now apply in_map.
Qed.

Lemma NoDup_keys_item {V : Type} (d : dict V) (x y : string * V) :
  NoDup (keys d) -> In x d -> In y d -> fst x = fst y -> x = y.
Proof.
  intros N Ix Iy E. destruct x as [k v], y as [k' v']. simpl in E. subst k'.
  apply (NoDup_keys_get _ _ _ N) in Ix. apply (NoDup_keys_get _ _ _ N) in Iy.
  congruence.
Qed.

(** Two dictionaries with the same items dump to the same text. *)
Lemma sort_keys_same_items (d d' : dict (list string)) :
  NoDup (keys d) -> NoDup (keys d') ->
  (forall item, In item d <-> In item d') ->
  sort_keys d = sort_keys d'.
Proof.
  intros N N' Same.
  assert (forall e : dict (list string), NoDup (keys e) -> NoDup e) as ND.
  { intros e. unfold keys. apply NoDup_map_inv. }
  apply (sorted_arrangement_unique
           (le_of (fun item item' : string * list string =>
                     String.leb (fst item) (fst item')))).
  - intros x y Ix Iy Lxy Lyx.
    apply (NoDup_keys_item d); auto.
    + eapply Permutation_in; [apply sort_keys_permutation | exact Ix].
    + eapply Permutation_in; [apply sort_keys_permutation | exact Iy].
    + now apply le_str_antisym.
  - apply sort_by_sorted.
    + intros x y. apply String.leb_total.
    + intros x y z. apply le_str_trans.
  - apply sort_by_sorted.
    + intros x y. apply String.leb_total.
    + intros x y z. apply le_str_trans.
  - rewrite !sort_keys_permutation. apply NoDup_Permutation; auto.
Qed.

Lemma well_formed_get (vm : value_map) (V : string) (uids : pyset) :
  well_formed_map vm -> dict_get vm V = Some uids -> uids <> [] /\ NoDup uids.
Proof.
  intros [_ F] G. apply dict_get_In in G. rewrite Forall_forall in F.
  apply (F _ G).
Qed.

Lemma same_map_sym (vm vm' : value_map) : same_map vm vm' -> same_map vm' vm.
Proof. intros S V id. symmetry. apply S. Qed.

Lemma same_map_get (vm vm' : value_map) (V : string) (uids : pyset) :
  well_formed_map vm -> well_formed_map vm' -> same_map vm vm' ->
  dict_get vm V = Some uids ->
  exists uids', dict_get vm' V = Some uids' /\ Permutation uids uids'.
Proof.
  intros W W' S G.
  destruct (well_formed_get _ _ _ W G) as [NE N].
  destruct uids as [|id0 rest] eqn:U; [congruence|]. rewrite <- U in *.
  assert (In id0 uids) as I0 by (rewrite U; now left).
  destruct (proj1 (S V id0)) as (uids' & G' & _); [eauto|].
  exists uids'. split; [exact G'|].
  destruct (well_formed_get _ _ _ W' G') as [_ N'].
  apply NoDup_Permutation; auto.
  intros id. split; intros I.
  - destruct (proj1 (S V id)) as (u & Gu & Iu); [eauto|]. congruence.
  - destruct (proj2 (S V id)) as (u & Gu & Iu); [eauto|]. congruence.
Qed.

Lemma same_map_items set_iter (vm vm' : value_map) (item : string * list string) :
  iteration set_iter ->
  well_formed_map vm -> well_formed_map vm' -> same_map vm vm' ->
  In item (serializable set_iter vm) -> In item (serializable set_iter vm').
Proof.
  intros It W W' S I. unfold serializable in *.
  apply in_map_iff in I as [[V uids] [<- I]]. simpl.
  apply (NoDup_keys_get _ _ _ (proj1 W)) in I.
  destruct (same_map_get _ _ _ _ W W' S I) as (uids' & G' & P).
  apply in_map_iff. exists (V, uids'). simpl. split.
  - f_equal. rewrite !sorted_iter by exact It.
    symmetry. now apply sorted_of_permutation.
  - now apply dict_get_In.
Qed.

Lemma keys_serializable set_iter (vm : value_map) :
  keys (serializable set_iter vm) = keys vm.
Proof. unfold serializable, keys. rewrite map_map. reflexivity. Qed.

(** Maps that record the same identifiers are written as the same
    text, with the same list of values in the manifest. *)
Lemma same_map_written set_iter (vm vm' : value_map) :
  iteration set_iter ->
  well_formed_map vm -> well_formed_map vm' -> same_map vm vm' ->
  json_dump (serializable set_iter vm) = json_dump (serializable set_iter vm')
  /\ sorted (keys vm) = sorted (keys vm').
Proof.
  intros It W W' S. split.
  - unfold json_dump. f_equal. apply sort_keys_same_items.
    + rewrite keys_serializable. apply W.
    + rewrite keys_serializable. apply W'.
    + intros item. split; apply same_map_items; auto using same_map_sym.
  - apply sorted_of_permutation, NoDup_Permutation; [apply W | apply W'|].
    assert (forall a b, well_formed_map a -> well_formed_map b -> same_map a b ->
                        forall V, In V (keys a) -> In V (keys b)) as K.
    { intros a b Wa Wb Sab V I. apply dict_get_keys in I as [uids G].
      destruct (same_map_get _ _ _ _ Wa Wb Sab G) as (uids' & G' & _).
      apply dict_get_keys. eauto. }
    intros V. split; apply K; auto using same_map_sym.
Qed.

Lemma map_same_keys {V B : Type} (F : string * V -> B) (l : dict V) :
  forall l' : dict V,
    keys l = keys l' ->
    (forall k v v', In (k, v) l -> In (k, v') l' -> F (k, v) = F (k, v')) ->
    map F l = map F l'.
Proof.
  induction l as [|[k v] l IH]; intros [|[k' v'] l']; simpl; try discriminate;
    [reflexivity|].
  intros [= <- E] H. f_equal.
  - apply H; now left.
  - apply IH; [exact E|]. intros k0 v0 v0' I I'. apply H; now right.
Qed.

Lemma fold_manifest_entries (indexes : indexes_t) :
  forall manifest,
    fold_left manifest_entry indexes manifest
    = fold_left (fun m entry => dict_set m (fst entry) (snd entry))
                (map (fun item => (filename_of (fst item),
                                   sorted (keys (snd item)))) indexes)
                manifest.
Proof.
  induction indexes as [|item indexes IH]; intros manifest; simpl;
    [reflexivity|].
  now rewrite IH.
Qed.

Lemma write_indexes_same set_iter (indexes indexes' : indexes_t) :
  iteration set_iter ->
  keys indexes = keys indexes' ->
  (forall tag vm vm',
      In (tag, vm) indexes -> In (tag, vm') indexes' ->
      well_formed_map vm /\ well_formed_map vm' /\ same_map vm vm') ->
  write_indexes set_iter indexes = write_indexes set_iter indexes'.
Proof.
  intros It K Same. unfold write_indexes.
  rewrite !tag_writes_map, !index_manifest_fold, !fold_manifest_entries.
  assert (map (tag_file set_iter) indexes = map (tag_file set_iter) indexes')
    as ->.
  { apply map_same_keys; [exact K|]. intros tag vm vm' I I'.
    destruct (Same _ _ _ I I') as (W & W' & S).
    unfold tag_file. simpl. f_equal. now apply same_map_written. }
  match goal with
  | |- context [fold_left _ (map ?g indexes) _] =>
      assert (map g indexes = map g indexes') as ->
  end.
  { apply map_same_keys; [exact K|]. intros tag vm vm' I I'.
    destruct (Same _ _ _ I I') as (W & W' & S).
    simpl. f_equal. now apply (same_map_written set_iter). }
  reflexivity.
Qed.

Lemma build_indexes_keys_eq (rs : records) (tags : list string)
      (key : string) (missing : list string) (indexes : indexes_t) :
  build_indexes (Holds rs) tags key missing = Ok indexes ->
  keys indexes = keys (empty_indexes tags).
Proof.
  unfold build_indexes, build_indexes_from.
  destruct rs as [|[|f fs] data]; try discriminate.
  destruct (missing_tags (f :: fs) tags); [|discriminate].
  destruct (negb (mem key (f :: fs))); [discriminate|].
  intros [= <-]. apply keys_fold_index_row.
Qed.

Lemma DictReader_rows_same (fieldnames : list string) (data data' : records) :
  (forall record, In record data <-> In record data') ->
  forall row,
    In row (DictReader_rows fieldnames data)
    <-> In row (DictReader_rows fieldnames data').
Proof.
  intros Same row. unfold DictReader_rows. rewrite !in_map_iff.
  split; intros [r [E I]]; exists r; (split; [exact E|]);
    apply filter_In in I as [I B]; apply filter_In; split; auto;
    now apply Same.
Qed.

(** X11. The files of the index depend on the rows of the table as a
    set only: two tables with the same header whose data rows are the
    same up to order and repetition give, for the same attributes, key
    column and missing tokens, the same files byte for byte. *)
Theorem rows_as_a_set :
  forall (set_iter : pyset -> list string) (fieldnames : list string)
         (data data' : records) (tags : list string)
         (study_uid_column : string) (missing_tokens : list string)
         (indexes indexes' : indexes_t),
    iteration set_iter ->
    (forall record, In record data <-> In record data') ->
    build_indexes (Holds (fieldnames :: data)) tags study_uid_column
                  missing_tokens = Ok indexes ->
    build_indexes (Holds (fieldnames :: data')) tags study_uid_column
                  missing_tokens = Ok indexes' ->
    write_indexes set_iter indexes = write_indexes set_iter indexes'.
Proof.
  intros set_iter fieldnames data data' tags key missing indexes indexes'
         It Same B B'.
  pose proof (build_indexes_well_formed_aux _ _ _ _ _ B) as F.
  pose proof (build_indexes_well_formed_aux _ _ _ _ _ B') as F'.
  pose proof (build_indexes_keys _ _ _ _ _ B) as [N _].
  pose proof (build_indexes_keys _ _ _ _ _ B') as [N' _].
  apply write_indexes_same; [exact It| |].
  - rewrite (build_indexes_keys_eq _ _ _ _ _ B).
    now rewrite (build_indexes_keys_eq _ _ _ _ _ B').
  - intros tag vm vm' I I'.
    rewrite Forall_forall in F, F'.
    split; [apply (F _ I)|]. split; [apply (F' _ I')|].
    apply (NoDup_keys_get _ _ _ N) in I. apply (NoDup_keys_get _ _ _ N') in I'.
    assert (forall V id, recorded indexes tag V id <-> recorded indexes' tag V id)
      as R.
    { intros V id.
      rewrite (build_indexes_recorded _ _ _ _ _ _ tag V id B).
      rewrite (build_indexes_recorded _ _ _ _ _ _ tag V id B').
      split; intros [It' [row [Ir Acc]]]; (split; [exact It'|]);
        exists row; (split; [|exact Acc]);
        now apply (DictReader_rows_same fieldnames data data' Same). }
    intros V id. split.
    + intros (uids & G & Iu).
      destruct (proj1 (R V id)) as (vm0 & uids0 & G0 & GV0 & I0).
      { exists vm, uids. auto. }
      assert (vm0 = vm') as -> by congruence. eauto.
    + intros (uids & G & Iu).
      destruct (proj2 (R V id)) as (vm0 & uids0 & G0 & GV0 & I0).
      { exists vm', uids. auto. }
      assert (vm0 = vm) as -> by congruence. eauto.
Qed.

Lemma rows_as_a_set_witness :
  iteration Example.backwards
  /\ (forall record, In record (tl Example.table)
                     <-> In record (tl ExampleMore.shuffled))
  /\ build_indexes (Holds ExampleMore.shuffled) ["Modality"; "Filename"]
                   "StudyInstanceUID" MISSING_TOKENS
     = Ok [("Modality", [("CT", ["S2"; "S1"])]);
           ("Filename", [("b.dcm", ["S2"]); ("c.dcm", ["S1"]); ("a.dcm", ["S1"])])]
  /\ write_indexes Example.backwards
       [("Modality", [("CT", ["S1"; "S2"])]);
        ("Filename", [("a.dcm", ["S1"]); ("b.dcm", ["S2"]); ("c.dcm", ["S1"])])]
     = write_indexes Example.backwards
         [("Modality", [("CT", ["S2"; "S1"])]);
          ("Filename", [("b.dcm", ["S2"]); ("c.dcm", ["S1"]); ("a.dcm", ["S1"])])].
Proof.
  assert (forall record, In record (tl Example.table)
                         <-> In record (tl ExampleMore.shuffled)) as Same
      by (intros record; simpl; tauto).
  split; [exact backwards_iteration|]. split; [exact Same|].
  split; [reflexivity|].
  apply (rows_as_a_set Example.backwards
           ["Filename"; "Modality"; "StudyInstanceUID"]
           (tl Example.table) (tl ExampleMore.shuffled)
           ["Modality"; "Filename"] "StudyInstanceUID" MISSING_TOKENS
           _ _ backwards_iteration Same);
    reflexivity.
Defined.

(** *** More on the extraction engine *)

Lemma collect_rows_filenames
      (value : Type) (dcmread : string -> option (Dataset value))
      (tags paths : list string) :
  map Filename (collect_rows value (futures_of dcmread tags paths))
  = filter (fun f => negb (read_fails dcmread tags f)) paths.
Proof.
  unfold futures_of, read_fails.
  induction paths as [|f paths IH]; simpl; [reflexivity|].
  destruct (_read_dicom_tags value dcmread f tags) as [r|] eqn:R; simpl.
  - apply read_dicom_tags_some in R as (ds & _ & _ & ->). simpl. now rewrite IH.
  - exact IH.
Qed.

Lemma completed_rows_filenames
      (value : Type) (dcmread : string -> option (Dataset value))
      (as_completed : forall A : Type, list A -> list A)
      (tags filelist : list string) :
  completion as_completed ->
  Permutation
    (map Filename
         (collect_rows value
            (as_completed _ (futures_of dcmread tags (filter truthy filelist)))))
    (read_paths dcmread tags filelist).
Proof.
  intros C. unfold read_paths. rewrite <- collect_rows_filenames.
  apply Permutation_map, collect_rows_permutation, C.
Qed.



(** X13. The Filename column of a table the engine returns is the
    sorted list of the non-empty paths that were read with success,
    each as many times as it was given. *)
Theorem dcmtag2table_filenames :
  forall (value : Type) (dcmread : string -> option (Dataset value))
         (as_completed : forall A : Type, list A -> list A)
         (filelist tags : list string) (max_workers : Z) (df : DataFrame value),
    completion as_completed ->
    dcmtag2table_from_file_list value dcmread as_completed
                                filelist tags max_workers = Ok df ->
    map Filename (rows df) = sorted (read_paths dcmread tags filelist).
Proof.
  intros value dcmread ac filelist tags max_workers df C.
  pose proof (completed_rows_filenames value dcmread ac tags filelist C) as P.
  assert (forall rs : list (row value),
             Permutation (map Filename rs) (read_paths dcmread tags filelist) ->
             ascending (map Filename rs) ->
             map Filename rs = sorted (read_paths dcmread tags filelist)) as U.
  { intros rs Prs Srs. apply (sorted_arrangement_unique le_str).
    - intros x y _ _. apply le_str_antisym.
    - exact Srs.
    - apply sorted_ascending.
    - rewrite sorted_permutation. exact Prs. }
  rewrite dcmtag2table_from_file_list_cases. cbv zeta.
  destruct (filter truthy filelist) as [|p paths] eqn:E.
  - intros [= <-]. unfold read_paths. rewrite E. reflexivity.
  - destruct (ProcessPoolExecutor max_workers); [discriminate|].
    destruct (collect_rows value _) as [|r rs] eqn:R.
    + intros [= <-]. simpl in *. apply Permutation_nil in P. now rewrite P.
    + destruct (mem "Filename" tags); [discriminate|].
      intros [= <-]. cbn [rows]. apply U.
      * rewrite <- P.
        apply Permutation_map, (sort_rows_permutation value (r :: rs)).
      * apply StronglySorted_map, (sort_rows_sorted value (r :: rs)).
Qed.

Lemma dcmtag2table_filenames_witness :
  completion last_first
  /\ dcmtag2table_from_file_list string reader last_first
       ["b.dcm"; "bad.dcm"; "a.dcm"; "b.dcm"] ["Modality"] 4
     = Ok {| columns := ["Filename"; "Modality"];
             rows := [ {| Filename := "a.dcm"; cells := [Value "CT"] |};
                       {| Filename := "b.dcm"; cells := [Value "CT"] |};
                       {| Filename := "b.dcm"; cells := [Value "CT"] |} ] |}
  /\ ["a.dcm"; "b.dcm"; "b.dcm"]
     = sorted (read_paths reader ["Modality"]
                          ["b.dcm"; "bad.dcm"; "a.dcm"; "b.dcm"]).
Proof.
  split; [exact last_first_completion|]. split; [reflexivity|].
  apply (dcmtag2table_filenames string reader last_first
           ["b.dcm"; "bad.dcm"; "a.dcm"; "b.dcm"] ["Modality"] 4
           _ last_first_completion eq_refl).
Defined.

Lemma filter_permutation {A : Type} (f : A -> bool) (l l' : list A) :
  Permutation l l' -> Permutation (filter f l) (filter f l').
Proof.
  induction 1 as [|x l l' P IH|x y l|l1 l2 l3 P1 IH1 P2 IH2]; simpl.
  - constructor.
  - destruct (f x); [now constructor | exact IH].
  - destruct (f x), (f y); try reflexivity. apply perm_swap.
  - eapply Permutation_trans; eauto.
Qed.

(** X14. The table does not depend on the order of the file list: two
    lists with the same paths, each as many times, give the same result,
    whatever the orders of completion. *)
Theorem dcmtag2table_input_order :
  forall (value : Type) (dcmread : string -> option (Dataset value))
         (as_completed as_completed' : forall A : Type, list A -> list A)
         (filelist filelist' tags : list string) (max_workers : Z),
    completion as_completed ->
    completion as_completed' ->
    Permutation filelist filelist' ->
    dcmtag2table_from_file_list value dcmread as_completed
                                filelist tags max_workers
    = dcmtag2table_from_file_list value dcmread as_completed'
                                  filelist' tags max_workers.
Proof.
  intros value dcmread ac ac' filelist filelist' tags max_workers C C' P.
  rewrite !dcmtag2table_from_file_list_cases. cbv zeta.
  assert (Permutation (filter truthy filelist) (filter truthy filelist')) as Pf
      by now apply filter_permutation.
  set (paths := filter truthy filelist) in *.
  set (paths' := filter truthy filelist') in *.
  assert (Permutation (ac _ (futures_of dcmread tags paths))
                      (futures_of dcmread tags paths)) as P1 by apply C.
  assert (Permutation (ac' _ (futures_of dcmread tags paths'))
                      (futures_of dcmread tags paths)) as P2.
  { rewrite (C' _ _). unfold futures_of. apply Permutation_map.
    now symmetry. }
  pose proof (sort_rows_completed value dcmread tags paths _ _ P1 P2) as S.
  assert (Permutation
            (collect_rows value (ac _ (futures_of dcmread tags paths)))
            (collect_rows value (ac' _ (futures_of dcmread tags paths')))) as Pr.
  { apply collect_rows_permutation. rewrite P1. now symmetry. }
  destruct paths as [|p ps] eqn:E.
  - apply Permutation_nil in Pf. now rewrite Pf.
  - destruct paths' as [|p' ps'] eqn:E'.
    + apply Permutation_sym, Permutation_nil in Pf. discriminate.
    + destruct (ProcessPoolExecutor max_workers); [reflexivity|].
      destruct (collect_rows value (ac _ _)) as [|r rs] eqn:R.
      * apply Permutation_nil in Pr. now rewrite Pr.
      * destruct (collect_rows value (ac' _ _)) as [|r' rs'] eqn:R'.
        -- apply Permutation_sym, Permutation_nil in Pr. discriminate.
        -- now rewrite S.
Qed.

Lemma dcmtag2table_input_order_witness :
  completion last_first
  /\ completion first_first
  /\ Permutation ["b.dcm"; "bad.dcm"; "a.dcm"] ["a.dcm"; "b.dcm"; "bad.dcm"]
  /\ dcmtag2table_from_file_list string reader last_first
       ["b.dcm"; "bad.dcm"; "a.dcm"] ["Modality"] 4
     = dcmtag2table_from_file_list string reader first_first
         ["a.dcm"; "b.dcm"; "bad.dcm"] ["Modality"] 4.
Proof.
  assert (Permutation ["b.dcm"; "bad.dcm"; "a.dcm"] ["a.dcm"; "b.dcm"; "bad.dcm"])
    as P.
  { apply (perm_trans (l' := ["b.dcm"; "a.dcm"; "bad.dcm"])).
    - apply perm_skip, perm_swap.
    - apply perm_swap. }
  split; [exact last_first_completion|].
  split; [exact first_first_completion|]. split; [exact P|].
  apply (dcmtag2table_input_order string reader last_first first_first
           ["b.dcm"; "bad.dcm"; "a.dcm"] ["a.dcm"; "b.dcm"; "bad.dcm"]
           ["Modality"] 4 last_first_completion first_first_completion P).
Defined.






(** *** The manifest *)

Import Manifest.

(** X17. [load_manifest] raises its [ValueError] exactly on a document
    without entries: one that is not an array or an object, an empty
    array, or an object in which none of series, files and entries has
    a value that counts as true. *)
Theorem load_manifest_no_entries :
  forall (absolute : string -> string) (resolved : string -> option string)
         (data : json),
    load_manifest absolute resolved data
    = RaisesValueError "Manifest does not contain any series entries."
    <-> without_entries data.
Proof.
  intros absolute resolved data. unfold load_manifest.
  assert (forall l, collect_paths absolute resolved l
                    <> RaisesValueError
                         "Manifest does not contain any series entries.") as NV.
  { induction l as [|item l IH]; simpl; [discriminate|].
    destruct (truth (path_value_of item)); simpl; [|exact IH].
    destruct (path_value_of item) as [[| | |p| |]|]; try discriminate.
    destruct (located absolute resolved p); [|discriminate].
    destruct (collect_paths absolute resolved l); try discriminate.
    exact IH. }
  assert (truth (items_of data) = false <-> without_entries data) as W.
  { destruct data as [|b|n|s|l|d]; cbn [items_of without_entries];
      try (cbn [truth]; tauto).
    - destruct l; cbn [truth]; split; congruence.
    - unfold py_or.
      destruct (truth (dict_get d "series")) eqn:S;
        [rewrite S | destruct (truth (dict_get d "files")) eqn:F; [rewrite F|]];
        intuition congruence. }
  destruct (truth (items_of data)) eqn:T; simpl.
  - split; [|intros H; apply W in H; discriminate].
    destruct (items_of data) as [items|]; [|discriminate].
    destruct (iterate items) as [l|]; [|discriminate].
    intros H. destruct (NV _ H).
  - split; [intros _; now apply W | reflexivity].
Qed.



Lemma collect_paths_skip (absolute : string -> string)
      (resolved : string -> option string)
      (before after : list json) (item : json) :
  truth (path_value_of item) = false ->
  collect_paths absolute resolved (before ++ item :: after)
  = collect_paths absolute resolved (before ++ after).
Proof.
  intros F. induction before as [|b before IH]; simpl.
  - now rewrite F.
  - now rewrite IH.
Qed.



(** X19. An entry without a usable path (an object in which none of
    file_path, path and filePath has a value that counts as true, an
    empty string, or anything that is not an object or a string) is
    passed over in silence: among other entries it changes nothing, and
    a manifest made of such an entry alone loads as the empty list,
    without the error of a manifest without entries. *)
Theorem load_manifest_skips :
  forall (absolute : string -> string) (resolved : string -> option string)
         (before after : list json) (item : json),
    truth (path_value_of item) = false ->
    load_manifest absolute resolved (JArray [item]) = Paths []
    /\ (before ++ after <> [] ->
        load_manifest absolute resolved (JArray (before ++ item :: after))
        = load_manifest absolute resolved (JArray (before ++ after))).
Proof.
  intros absolute resolved before after item F. split.
  - unfold load_manifest. cbn [items_of truth negb iterate].
    simpl. now rewrite F.
  - intros NE. unfold load_manifest.
    assert (truth (items_of (JArray (before ++ item :: after))) = true) as T1
        by (destruct before; reflexivity).
    assert (truth (items_of (JArray (before ++ after))) = true) as T2.
    { simpl. destruct (before ++ after); [congruence | reflexivity]. }
    rewrite T1, T2. cbn [negb items_of iterate].
    now apply collect_paths_skip.
Qed.

Lemma load_manifest_skips_witness :
  truth (path_value_of (JObject [("uid", JString "1.2.3")])) = false
  /\ load_manifest same under_export
       (JArray [JObject [("uid", JString "1.2.3")]]) = Paths []
  /\ load_manifest same under_export
       (JArray [JString "/a.dcm"; JObject [("uid", JString "1.2.3")]])
     = load_manifest same under_export (JArray [JString "/a.dcm"]).
Proof.
  split; [reflexivity|].
  destruct (load_manifest_skips same under_export [JString "/a.dcm"] []
              (JObject [("uid", JString "1.2.3")]) eq_refl) as [Alone Among].
  split; [exact Alone|]. apply Among. discriminate.
Defined.

(** *** The command of the extraction *)





(** X21. When none of the files a manifest lists exists, and the
    directory of the output can be made and written to, [main] of
    [main.py] does not fail: it ends with exit code 0 and a table that
    has the header and no row, whatever the worker count. *)
Theorem extraction_main_no_file :
  forall (value : Type) (dcmread : string -> option (Dataset value))
         (as_completed : forall A : Type, list A -> list A)
         (w : Main.World) (args : Main.Namespace)
         (filelist tags : list string),
    Main.path_exists w (Main.manifest args) = Ok true ->
    Main.load_manifest w = Ok filelist ->
    Main.load_tags (Main.text_files w) (Main.tags_file args) = Ok tags ->
    Main.make_output_dir w (Main.output_dir args) = None ->
    (forall f, In f filelist -> Main.path_exists w f = Ok false) ->
    Main.import_engine w = None ->
    Main.to_csv w (Main.output_dir args) = None ->
    Main.main value dcmread as_completed w args
    = {| Main.exit_code := 0;
         Main.table := Some {| columns := "Filename" :: tags; rows := [] |} |}.
Proof.
  intros value dcmread ac w args filelist tags M L T D Gone Imp W.
  assert (Main.existing w filelist = Ok []) as K.
  { clear L. induction filelist as [|f rest IH]; simpl; [reflexivity|].
    rewrite (Gone f (or_introl eq_refl)). cbn [bind].
    rewrite IH; [reflexivity|]. intros g I. apply Gone. now right. }
  unfold Main.main, Main.run. rewrite M, L. cbn [negb bind]. rewrite T.
  cbn [bind]. rewrite D. cbn [guard]. rewrite K. cbn [bind].
  rewrite Imp. cbn [guard]. unfold Main.extract.
  rewrite dcmtag2table_from_file_list_cases. cbv zeta. cbn [filter bind].
  rewrite W. reflexivity.
Qed.

Lemma extraction_main_no_file_witness :
  (forall f, In f ["x.dcm"; "y.dcm"] ->
             Main.path_exists ExampleExtraction.emptied f = Ok false)
  /\ Main.main string reader last_first
       ExampleExtraction.emptied (ExampleExtraction.arguments 4)
     = {| Main.exit_code := 0;
          Main.table := Some {| columns := "Filename" :: Main.DEFAULT_TAGS;
                                rows := [] |} |}.
Proof.
  assert (forall f, In f ["x.dcm"; "y.dcm"] ->
                    Main.path_exists ExampleExtraction.emptied f = Ok false)
    as Gone by (intros f [<- | [<- | []]]; reflexivity).
  split; [exact Gone|].
  apply (extraction_main_no_file string reader last_first
           ExampleExtraction.emptied (ExampleExtraction.arguments 4)
           ["x.dcm"; "y.dcm"] Main.DEFAULT_TAGS);
    try reflexivity.
  exact Gone.
Defined.
